(** * initialize.py: session initialisation of the product-recommendation app

    A shallow embedding of [src/initialize.py] and the properties of its
    functions: the string sanitiser [adjust_string], the catalogue enricher
    [initialize_stock_status] with its classifier [generate_stock_status],
    and the session bootstrap ([initialize_session_id], [initialize_logger],
    [initialize_retriever]).

    Python values are one inductive type, [value]; a Python [str] is the list
    of its code points.  Code that talks to the outside (the catalogue file,
    the language model, the logging registry, the session state) is written
    in a state-and-exception monad over a record [world]; what the outside
    answers is a parameter of the development. *)

From Stdlib Require Import String Ascii.
From stdpp Require Import gmap strings list fin_maps.

Local Open Scope N_scope.

(** ** Python strings *)

(** A Python [str]: its code points, in order. *)
Abbreviation pystr := (list N).

(** UTF-8 decoding of the bytes of a literal of this file, so that the
    literals of the source can be written as they are there. *)
Fixpoint utf8_decode (bs : list N) : pystr :=
  match bs with
  | [] => []
  | b :: rest =>
    if b <? 0x80 then b :: utf8_decode rest
    else if b <? 0xE0 then
      match rest with
      | c1 :: r => ((b - 0xC0) * 0x40 + (c1 - 0x80)) :: utf8_decode r
      | _ => []
      end
    else if b <? 0xF0 then
      match rest with
      | c1 :: c2 :: r =>
        ((b - 0xE0) * 0x1000 + (c1 - 0x80) * 0x40 + (c2 - 0x80)) :: utf8_decode r
      | _ => []
      end
    else
      match rest with
      | c1 :: c2 :: c3 :: r =>
        ((b - 0xF0) * 0x40000 + (c1 - 0x80) * 0x1000 + (c2 - 0x80) * 0x40 + (c3 - 0x80))
          :: utf8_decode r
      | _ => []
      end
  end.

Fixpoint bytes_of_string (s : string) : list N :=
  match s with
  | EmptyString => []
  | String a s' => N_of_ascii a :: bytes_of_string s'
  end.

(** The [str] a source literal denotes. *)
Definition lit (s : string) : pystr := utf8_decode (bytes_of_string s).

(** The line feed of ["\n"]. *)
Definition LF : pystr := [0x0A].

(** [str.isspace] on one code point: the characters [str.strip()] removes. *)
Definition is_space (c : N) : bool :=
  ((0x09 <=? c) && (c <=? 0x0D)) || ((0x1C <=? c) && (c <=? 0x20))
  || (c =? 0x85) || (c =? 0xA0) || (c =? 0x1680)
  || ((0x2000 <=? c) && (c <=? 0x200A))
  || (c =? 0x2028) || (c =? 0x2029) || (c =? 0x202F) || (c =? 0x205F)
  || (c =? 0x3000).

Fixpoint lstrip (s : pystr) : pystr :=
  match s with
  | c :: s' => if is_space c then lstrip s' else s
  | [] => []
  end.

(** [s.strip()] *)
Definition strip (s : pystr) : pystr := rev (lstrip (rev (lstrip s))).

(** ** Python values *)

(** The objects this module handles, one constructor per class. *)
#[warnings="-register-all"]
Inductive value : Type :=
| VNone
| VBool (b : bool)
| VInt (n : Z)
| VStr (s : pystr)
| VBytes (b : list N)
| VList (l : list value)
| VDocument (page_content : value) (metadata : gmap string value)
| VOpenAIEmbeddings
| VChroma (docs : list value) (embedding : value)
| VVectorStoreRetriever (db : value) (search_k : value)
| VBM25Retriever (texts : list value) (k : value)
| VEnsembleRetriever (retrievers : list value) (weights : value).

(** ** The interpreter and its libraries

    What [adjust_string] and the f-strings take from the Python runtime:
    these functions are not code of this repository. *)
Record python : Type := Python {
  (** [sys.platform] *)
  sys_platform : string;
  (** [unicodedata.normalize('NFC', s)] *)
  normalize_NFC : pystr -> pystr;
  (** the cp932 encoder on one character: its bytes, or [None] where the
      code page has no such character *)
  cp932_encode_char : N -> option (list N);
  (** [bytes.decode("cp932")] *)
  cp932_decode : list N -> pystr;
  (** the builtin [str()], which an f-string applies to what it embeds *)
  builtin_str : value -> pystr;
  (** [os.path.join] *)
  os_path_join : pystr -> pystr -> pystr
}.

(** [s.encode("cp932", "ignore")]: a character the code page lacks is
    skipped, the bytes of the others are concatenated. *)
Definition cp932_encode_ignore (py : python) (s : pystr) : list N :=
  c ← s; default [] (cp932_encode_char py c).

(** [sys.platform.startswith("win")] *)
Definition on_windows (py : python) : bool :=
  String.prefix "win" (sys_platform py).

(** ** adjust_string *)

Definition adjust_string (py : python) (s : value) : value :=
  match s with
  | VStr s0 =>
    if on_windows py then
      let s1 := normalize_NFC py s0 in
      let s2 := cp932_decode py (cp932_encode_ignore py s1) in
      VStr s2
    else VStr s0
  | _ => s
  end.

(** [type(s) is str] *)
Definition is_str (v : value) : bool :=
  match v with VStr _ => true | _ => false end.

(** ** Exceptions, events and the world *)

Inductive exn : Type :=
| FileNotFoundError
| KeyError (key : pystr)
| ValueError
| AttributeError (name : string)
| ServiceError (code : N)
| TypeError
| RuntimeError.

(** How a call ends: it returns, or an exception leaves it. *)
Inductive result (A : Type) : Type :=
| Ok (a : A)
| Raise (e : exn).
Arguments Ok {A} a.
Arguments Raise {A} e.

(** The calls that leave the program, as the trace records them. *)
Inductive event : Type :=
| EvMakedirs (path : pystr)
| EvTimedRotatingFileHandler (filename : pystr)
| EvUuid4
| EvChatCompletion (system_content user_content : pystr)
| EvCSVLoader (path : pystr)
| EvOpenAIEmbeddings
| EvChromaFromDocuments (docs : list value)
| EvBM25FromTexts (texts : list value)
| EvEnsembleRetriever.

(** A [logging] handler: here always a [TimedRotatingFileHandler]. *)
Record handler : Type := Handler {
  h_filename : pystr;
  h_when : pystr;
  h_encoding : pystr;
  h_formatter : option pystr
}.

Record logger : Type := Logger {
  handlers : list handler;
  level : Z;
  propagate : bool
}.

(** A CSV file, as the rows [csv.reader] yields from it when the file is
    read as the source reads it: the text of the file (quoting, line ends)
    is the [csv] module's.  The source opens the file without [newline=""],
    so a CR or CR LF inside a quoted field is read as LF; the rows here are
    the rows as read. *)
Abbreviation csv_file := (list (list pystr)).

Record world : Type := World {
  (** [st.session_state] *)
  session_state : gmap string value;
  (** the file at [ct.RAG_SOURCE_PATH]; [None] when there is none *)
  catalog : option csv_file;
  (** [logging.getLogger(ct.LOGGER_NAME)]; a logger that was never asked
      for is the logger [getLogger] would create: no handler, level 0,
      propagating *)
  app_logger : logger;
  (** its ancestors, nearest first, the root logger last *)
  logger_parents : list logger;
  (** the calls made so far, oldest first *)
  trace : list event
}.

Definition set_session_state (f : gmap string value -> gmap string value) (w : world) : world :=
  World (f (session_state w)) (catalog w) (app_logger w) (logger_parents w) (trace w).

Definition set_catalog (c : option csv_file) (w : world) : world :=
  World (session_state w) c (app_logger w) (logger_parents w) (trace w).

Definition set_app_logger (f : logger -> logger) (w : world) : world :=
  World (session_state w) (catalog w) (f (app_logger w)) (logger_parents w) (trace w).

Definition log_event (ev : event) (w : world) : world :=
  World (session_state w) (catalog w) (app_logger w) (logger_parents w) (trace w ++ [ev]).

(** The module [constants] ([ct]): its values are the deployment's. *)
Record constants : Type := Constants {
  RAG_SOURCE_PATH : pystr;
  LOG_DIR_PATH : pystr;
  LOG_FILE : pystr;
  LOGGER_NAME : pystr;
  TOP_K : value;
  RETRIEVER_WEIGHTS : value
}.

(** The message of the first choice of a chat completion: the object of
    the clients that offer [openai.chat] (a [ChatCompletionMessage], which
    has attributes and no subscript), or a plain dict, as a stub may
    return it.  Its content is a string or [None]. *)
Inductive message : Type :=
| ChatCompletionMessage (content : option pystr)
| DictMessage (content : option pystr).

(** What the collaborators answer. *)
Record outside : Type := Outside {
  (** [openai.chat.completions.create(...).choices[0].message] of the
      [n]-th chat completion (counting from 0) for a user prompt, or the
      exception the call raises ([AttributeError] where the client has no
      [openai.chat]) *)
  chat_completions_create : nat -> pystr -> result message;
  (** [uuid4().hex] of the [n]-th call *)
  uuid4_hex : nat -> pystr;
  (** the documents [CSVLoader.load] makes of a file *)
  csv_loader_load : csv_file -> list value;
  (** whether a call raises, given the calls before it *)
  raises : list event -> event -> option exn
}.

(** [message["content"]], as line 214 reads it for the [strip()] that
    follows: a [ChatCompletionMessage] is not subscriptable, and [None] has
    no [strip]. *)
Definition message_content (m : message) : result pystr :=
  match m with
  | ChatCompletionMessage _ => Raise TypeError
  | DictMessage (Some s) => Ok s
  | DictMessage None => Raise (AttributeError "strip")
  end.

(** What the program gets of the [n]-th chat completion: the content its
    own access reads in the message the call returned, or the exception
    of the call or of the access. *)
Definition chat_completion (out : outside) (n : nat) (prompt : pystr) : result pystr :=
  match chat_completions_create out n prompt with
  | Ok m => message_content m
  | Raise e => Raise e
  end.

(** ** The monad of the program: state and exceptions

    An exception keeps the state reached when it was raised. *)
Definition M (A : Type) : Type := world -> result A * world.

Definition ret {A} (a : A) : M A := fun w => (Ok a, w).

Definition bind {A B} (m : M A) (k : A -> M B) : M B :=
  fun w =>
    match m w with
    | (Ok a, w') => k a w'
    | (Raise e, w') => (Raise e, w')
    end.

Definition raise {A} (e : exn) : M A := fun w => (Raise e, w).

Definition gets {A} (f : world -> A) : M A := fun w => (Ok (f w), w).

Definition modify (f : world -> world) : M unit := fun w => (Ok tt, f w).

Declare Scope py_scope.
Delimit Scope py_scope with py.
Notation "x <- m ;; k" := (bind m (fun x => k))
  (at level 100, m at next level, right associativity) : py_scope.
Notation "m ;; k" := (bind m (fun _ => k))
  (at level 100, right associativity) : py_scope.
Local Open Scope py_scope.

(** ** The program *)

Section Program.
Context (ct : constants) (py : python) (out : outside).

(** A call to a collaborator: it is recorded, and raises when the
    outside says so. *)
Definition external (ev : event) : M unit :=
  fun w =>
    match raises out (trace w) ev with
    | Some e => (Raise e, log_event ev w)
    | None => (Ok tt, log_event ev w)
    end.

(** *** The classifier *)

Definition is_chat (ev : event) : bool :=
  match ev with EvChatCompletion _ _ => true | _ => false end.

(** How many chat completions were asked for so far. *)
Definition chat_calls (w : world) : nat := length (filter is_chat (trace w)).

(** [openai.chat.completions.create(...)], down to the message of the
    first choice *)
Definition chat_create (system_content user_content : pystr) : M message :=
  fun w =>
    (chat_completions_create out (chat_calls w) user_content,
     log_event (EvChatCompletion system_content user_content) w).

(** [message["content"]] with the receiver of [strip()] checked *)
Definition getitem_content (m : message) : M pystr :=
  fun w => (message_content m, w).

Definition stock_prompt (product_name : value) : pystr :=
  lit "以下の商品に対して適切な在庫ステータスを生成してください。" ++ LF ++ LF
  ++ lit "商品名: " ++ builtin_str py product_name ++ LF ++ LF
  ++ lit "在庫ステータスは次のいずれかから選んでください: 'あり', '残りわずか', 'なし'。" ++ LF
  ++ lit "回答は必ず1つの選択肢のみを返してください。".

Definition system_prompt : pystr :=
  lit "あなたは在庫ステータスを生成するアシスタントです。".

Definition generate_stock_status (product_name : value) : M pystr :=
  let prompt := stock_prompt product_name in
  message <- chat_create system_prompt prompt ;;
  content <- getitem_content message ;;
  let stock_status := strip content in
  if bool_decide (stock_status ∈ [lit "あり"; lit "残りわずか"; lit "なし"])
  then ret stock_status
  else ret (lit "なし").

(** *** csv.DictReader and csv.DictWriter *)

(** A row as [DictReader] yields it: the fields by name, and under the
    key [None] (the reader's [restkey]) the values beyond the last name. *)
Record row_dict : Type := RowDict {
  fields : gmap pystr value;
  restkey_None : option (list pystr)
}.

(** [dict(zip(keys, values))]: a later pair replaces an earlier one of
    the same key. *)
Definition dict_zip (keys : list pystr) (values : list pystr) : gmap pystr value :=
  foldl (fun d kv => <[kv.1 := VStr kv.2]> d) ∅ (zip keys values).

(** [reader.fieldnames]: the first row of the file, [None] when the file
    has none. *)
Definition reader_fieldnames (f : csv_file) : option (list pystr) := head f.

(** The rows the reader iterates over after the header; it skips the
    empty ones. *)
Definition reader_rows (f : csv_file) : csv_file :=
  filter (fun r => r ≠ []) (tail f).

(** [DictReader.__next__] on one row. *)
Definition reader_next (fieldnames : list pystr) (row : list pystr) : row_dict :=
  let d := dict_zip fieldnames row in
  let lf := length fieldnames in
  let lr := length row in
  if (lf <? lr)%nat then RowDict d (Some (drop lf row))
  else if (lr <? lf)%nat then
    RowDict (foldl (fun d key => <[key := VNone]> d) d (drop lr fieldnames)) None
  else RowDict d None.

(** [row[key]] *)
Definition getitem (row : row_dict) (key : pystr) : M value :=
  match fields row !! key with
  | Some v => ret v
  | None => raise (KeyError key)
  end.

(** [row[key] = v] *)
Definition setitem (row : row_dict) (key : pystr) (v : value) : row_dict :=
  RowDict (<[key := v]> (fields row)) (restkey_None row).

(** What [csv.writer] writes for a field: nothing for [None], the string
    itself, [str()] of anything else. *)
Definition csv_field (v : value) : pystr :=
  match v with
  | VNone => []
  | VStr s => s
  | _ => builtin_str py v
  end.

(** [DictWriter._dict_to_list] with [extrasaction="raise"] and
    [restval=""]. *)
Definition dict_to_list (fieldnames : list pystr) (row : row_dict) : result (list pystr) :=
  if bool_decide (restkey_None row = None)
     && bool_decide (dom (fields row) ⊆ list_to_set fieldnames)
  then Ok ((fun key => csv_field (default (VStr []) (fields row !! key))) <$> fieldnames)
  else Raise ValueError.

(** [open(ct.RAG_SOURCE_PATH, mode='r')] and the rows read from it.  The
    catalogue of the world holds the rows as this read yields them (see
    [csv_file]); what the read makes of the fields as they are stored is
    [text_mode] below. *)
Definition open_read : M csv_file :=
  fun w =>
    match catalog w with
    | Some f => (Ok f, w)
    | None => (Raise FileNotFoundError, w)
    end.

(** [open(ct.RAG_SOURCE_PATH, mode='w')]: the file is empty from here on. *)
Definition open_write : M unit := modify (set_catalog (Some [])).

(** [writer.writerow] of the underlying [csv.writer]. *)
Definition writerow (r : list pystr) : M unit :=
  modify (fun w => set_catalog (Some (default [] (catalog w) ++ [r])) w).

Definition dict_writerow (fieldnames : list pystr) (row : row_dict) : M unit :=
  match dict_to_list fieldnames row with
  | Ok r => writerow r
  | Raise e => raise e
  end.

(** [writer.writeheader()] *)
Definition writeheader (fieldnames : list pystr) : M unit :=
  dict_writerow fieldnames (RowDict (dict_zip fieldnames fieldnames) None).

(** [writer.writerows(rows)]: row after row, up to the first that raises. *)
Fixpoint writerows (fieldnames : list pystr) (rows : list row_dict) : M unit :=
  match rows with
  | [] => ret tt
  | row :: rows' => dict_writerow fieldnames row ;; writerows fieldnames rows'
  end.

(** *** initialize_stock_status *)

(** The loop [for row in reader], with [rows] the list built so far. *)
Fixpoint enrich_rows (fieldnames : list pystr) (todo : csv_file) (rows : list row_dict)
  : M (list row_dict) :=
  match todo with
  | [] => ret rows
  | r :: todo' =>
    let row := reader_next fieldnames r in
    product_name <- getitem row (lit "name") ;;
    stock_status <- generate_stock_status product_name ;;
    let row := setitem row (lit "stock_status") (VStr stock_status) in
    enrich_rows fieldnames todo' (rows ++ [row])
  end.

Definition initialize_stock_status : M unit :=
  infile <- open_read ;;
  match reader_fieldnames infile with
  | None => ret tt
  | Some reader_names =>
    if bool_decide (reader_names = []) || bool_decide (lit "stock_status" ∈ reader_names)
    then ret tt
    else
      let fieldnames := reader_names ++ [lit "stock_status"] in
      rows <- enrich_rows reader_names (reader_rows infile) [] ;;
      open_write ;;
      writeheader fieldnames ;;
      writerows fieldnames rows
  end.

(** *** The session *)

(** [st.session_state.name = v] *)
Definition setattr_session (name : string) (v : value) : M unit :=
  modify (set_session_state (fun s => <[name := v]> s)).

(** [st.session_state.name] *)
Definition getattr_session (name : string) : M value :=
  fun w =>
    match session_state w !! name with
    | Some v => (Ok v, w)
    | None => (Raise (AttributeError name), w)
    end.

(** [name in st.session_state] *)
Definition in_session (name : string) : M bool :=
  gets (fun w => bool_decide (is_Some (session_state w !! name))).

Definition is_uuid4 (ev : event) : bool :=
  match ev with EvUuid4 => true | _ => false end.

(** [uuid4().hex] *)
Definition uuid4_call : M pystr :=
  fun w => (Ok (uuid4_hex out (length (filter is_uuid4 (trace w)))), log_event EvUuid4 w).

Definition initialize_session_id : M unit :=
  present <- in_session "session_id" ;;
  if negb present then
    hex <- uuid4_call ;;
    setattr_session "session_id" (VStr hex)
  else ret tt.

Definition initialize_session_state : M unit :=
  present <- in_session "messages" ;;
  if negb present then setattr_session "messages" (VList [])
  else ret tt.

(** *** The logger *)

(** [Logger.hasHandlers]: this logger or, while loggers propagate, one
    of its ancestors has a handler. *)
Fixpoint hasHandlers (c : logger) (parents : list logger) : bool :=
  match handlers c with
  | _ :: _ => true
  | [] =>
    if negb (propagate c) then false
    else
      match parents with
      | [] => false
      | p :: parents' => hasHandlers p parents'
      end
  end.

(** The format string of the source, around the session identifier. *)
Definition log_format (session_id : value) : pystr :=
  lit "[%(levelname)s] %(asctime)s line %(lineno)s, in %(funcName)s, session_id="
  ++ builtin_str py session_id ++ lit ": %(message)s".

(** [logging.INFO] *)
Definition INFO : Z := 20%Z.

Definition initialize_logger : M unit :=
  external (EvMakedirs (LOG_DIR_PATH ct)) ;;
  has <- gets (fun w => hasHandlers (app_logger w) (logger_parents w)) ;;
  if has then ret tt
  else
    let filename := os_path_join py (LOG_DIR_PATH ct) (LOG_FILE ct) in
    external (EvTimedRotatingFileHandler filename) ;;
    let log_handler := Handler filename (lit "D") (lit "utf8") None in
    session_id <- getattr_session "session_id" ;;
    let formatter := log_format session_id in
    let log_handler :=
      Handler (h_filename log_handler) (h_when log_handler) (h_encoding log_handler)
              (Some formatter) in
    modify (set_app_logger (fun l => Logger (handlers l) INFO (propagate l))) ;;
    modify (set_app_logger (fun l =>
      Logger (handlers l ++ [log_handler]) (level l) (propagate l))).

(** *** The retriever *)

(** The two assignments of the first loop over [docs], on one document. *)
Definition adjust_doc (doc : value) : value :=
  match doc with
  | VDocument page_content metadata =>
    VDocument (adjust_string py page_content) (adjust_string py <$> metadata)
  | _ => doc
  end.

(** [doc.page_content] *)
Definition page_content_of (doc : value) : value :=
  match doc with
  | VDocument page_content _ => page_content
  | _ => VNone
  end.

(** [CSVLoader(ct.RAG_SOURCE_PATH, encoding="utf-8").load()]; the loader
    raises [RuntimeError] for a file it cannot open. *)
Definition loader_load : M (list value) :=
  external (EvCSVLoader (RAG_SOURCE_PATH ct)) ;;
  fun w =>
    match catalog w with
    | Some f => (Ok (csv_loader_load out f), w)
    | None => (Raise RuntimeError, w)
    end.

(** The logger the source fetches first is not used, and fetching it
    changes nothing that is observed here. *)
Definition initialize_retriever : M unit :=
  present <- in_session "retriever" ;;
  if present then ret tt
  else
    docs <- loader_load ;;
    let docs := adjust_doc <$> docs in
    let docs_all := page_content_of <$> docs in
    external EvOpenAIEmbeddings ;;
    let embeddings := VOpenAIEmbeddings in
    external (EvChromaFromDocuments docs) ;;
    let db := VChroma docs embeddings in
    let retriever := VVectorStoreRetriever db (TOP_K ct) in
    external (EvBM25FromTexts docs_all) ;;
    let bm25_retriever := VBM25Retriever docs_all (TOP_K ct) in
    external EvEnsembleRetriever ;;
    let ensemble_retriever :=
      VEnsembleRetriever [bm25_retriever; retriever] (RETRIEVER_WEIGHTS ct) in
    setattr_session "retriever" ensemble_retriever.

(** *** initialize *)

Definition initialize : M unit :=
  initialize_session_state ;;
  initialize_session_id ;;
  initialize_logger ;;
  initialize_stock_status ;;
  initialize_retriever.

End Program.

(** ** What the statements below speak of *)

(** The three labels of [generate_stock_status]. *)
Definition stock_labels : list pystr := [lit "あり"; lit "残りわずか"; lit "なし"].

(** The label [generate_stock_status] makes of a reply of the model. *)
Definition checked_label (content : pystr) : pystr :=
  if bool_decide (strip content ∈ stock_labels) then strip content else lit "なし".

(** The row the loop of the enricher makes of a row of the file and of the
    reply of the model for it. *)
Definition enriched_row (names : list pystr) (r : list pystr) (content : pystr) : row_dict :=
  setitem (reader_next names r) (lit "stock_status") (VStr (checked_label content)).

(** The catalogue the enricher is to leave: the header with [stock_status]
    after it, and every row that is not empty, in order, with its label
    last; a row shorter than the header has empty fields for the names
    it lacks. *)
Definition enriched_file (names : list pystr) (rows : csv_file) (answers : list pystr)
  : csv_file :=
  (names ++ [lit "stock_status"])
    :: zip_with
         (fun r a => r ++ replicate (length names - length r)%nat [] ++ [checked_label a])
         (filter (fun r => r ≠ []) rows) answers.

(** Universal newlines: what reading in text mode without [newline=""],
    as line 162 opens the file, makes of a stored field: CR LF and CR
    become LF before the reader sees them. *)
Fixpoint universal_newlines (s : pystr) : pystr :=
  match s with
  | [] => []
  | c :: s' =>
    if c =? 0x0D then
      0x0A :: match s' with
              | c' :: s'' =>
                if c' =? 0x0A then universal_newlines s'' else universal_newlines s'
              | [] => []
              end
    else c :: universal_newlines s'
  end.

(** The rows as read, of the rows as they are stored. *)
Definition text_mode (stored : csv_file) : csv_file :=
  (fun r : list pystr => universal_newlines <$> r) <$> (stored : list (list pystr)).

(** The prompt of the call for a row. *)
Definition row_prompt (py : python) (names : list pystr) (r : list pystr) : pystr :=
  stock_prompt py (default VNone (fields (reader_next names r) !! lit "name")).

(** The handler [initialize_logger] makes in a session whose identifier
    is [session_id]. *)
Definition log_handler_of (ct : constants) (py : python) (session_id : value) : handler :=
  Handler (os_path_join py (LOG_DIR_PATH ct) (LOG_FILE ct)) (lit "D") (lit "utf8")
          (Some (log_format py session_id)).

(** The builds of a vector store in a trace. *)
Definition is_vector_store_build (ev : event) : bool :=
  match ev with EvChromaFromDocuments _ => true | _ => false end.

Definition vector_store_builds (w : world) : nat :=
  length (filter is_vector_store_build (trace w)).

(** A process that serves page loads of several sessions, one after the
    other: before each call of [initialize_logger] the session state is the
    one of the session served; an exception ends that page load only. *)
Definition serve_loggers (ct : constants) (py : python) (out : outside)
    (sessions : list (gmap string value)) (w : world) : world :=
  foldl (fun w s => (initialize_logger ct py out (set_session_state (fun _ => s) w)).2)
        w sessions.

(** The character the code page gives back for a character: what decoding
    its bytes yields. *)
Definition cp932_canonical (py : python) (c : N) : option N :=
  bs ← cp932_encode_char py c; head (cp932_decode py bs).

(** The laws of the normaliser and of the codec that the sanitiser's
    idempotence rests on.  The code page may give back characters that are
    not in normal form C (cp932 has the angstrom sign U+212B and CJK
    compatibility ideographs): the laws speak of the characters that are. *)
Class SanitizerLaws (py : python) : Prop := {
  (** decoding the encoder's output yields, for each character the code
      page has, the character its bytes stand for *)
  decode_encode_ignore : forall s,
    cp932_decode py (cp932_encode_ignore py s) = omap (cp932_canonical py) s;
  (** which the code page has, and gives back as it is *)
  canonical_fixed : forall c c',
    cp932_canonical py c = Some c' -> cp932_canonical py c' = Some c';
  (** every character of a normalised string is normalised by itself *)
  normalized_chars : forall s c,
    c ∈ normalize_NFC py s -> normalize_NFC py [c] = [c];
  (** the code page gives back a normalised character for a normalised
      character *)
  canonical_normalized : forall c c',
    normalize_NFC py [c] = [c] -> cp932_canonical py c = Some c' ->
    normalize_NFC py [c'] = [c'];
  (** normalised characters that the code page gives back as they are do
      not combine: a string of them is in normal form C *)
  canonical_NFC : forall t,
    Forall (fun c => cp932_canonical py c = Some c /\ normalize_NFC py [c] = [c]) t ->
    normalize_NFC py t = t
}.

(** ** A sample deployment

    Concrete constants, runtimes, collaborators and worlds, on which the
    statements are exercised. *)

Definition sample_ct : constants :=
  Constants (lit "./data/products.csv") (lit "./logs") (lit "application.log")
            (lit "ApplicationLog") (VInt 5) (VList [VInt 1; VInt 1]).

Definition sample_str (v : value) : pystr :=
  match v with
  | VStr s => s
  | VNone => lit "None"
  | VBool true => lit "True"
  | VBool false => lit "False"
  | _ => lit "<object>"
  end.

Definition sample_join (a b : pystr) : pystr := a ++ lit "/" ++ b.

(** A runtime that is not Windows. *)
Definition linux : python :=
  Python "linux" (fun s => s) (fun _ => None) (fun _ => []) sample_str sample_join.

(** A miniature of the cp932 code page, with three of its entries: ASCII;
    the wave dash U+301C, whose bytes 81 60 decode to the fullwidth tilde
    U+FF5E; and the angstrom sign U+212B, bytes 81 F0, which the code page
    gives back although it is not in normal form C. *)
Definition mini_encode_char (c : N) : option (list N) :=
  if c <? 0x80 then Some [c]
  else if (c =? 0x301C) || (c =? 0xFF5E) then Some [0x81; 0x60]
  else if c =? 0x212B then Some [0x81; 0xF0]
  else None.

Fixpoint mini_decode (bs : list N) : pystr :=
  match bs with
  | [] => []
  | b :: rest =>
    if b <? 0x80 then b :: mini_decode rest
    else
      match rest with
      | b2 :: rest' =>
        if (b =? 0x81) && (b2 =? 0x60) then 0xFF5E :: mini_decode rest'
        else if (b =? 0x81) && (b2 =? 0xF0) then 0x212B :: mini_decode rest'
        else []
      | [] => []
      end
  end.

(** A miniature of normal form C: the angstrom sign U+212B becomes U+00C5. *)
Definition mini_NFC (s : pystr) : pystr :=
  (fun c => if c =? 0x212B then 0xC5 else c) <$> s.

Definition windows : python :=
  Python "win32" mini_NFC mini_encode_char mini_decode sample_str sample_join.

(** A stub classifier, whose messages are dicts: ["あり"], then
    ["残りわずか"] for every later call. *)
Definition stub_outside : outside :=
  Outside (fun n _ => match n with
                      | O => Ok (DictMessage (Some (lit "あり")))
                      | _ => Ok (DictMessage (Some (lit "残りわずか")))
                      end)
          (fun n => lit "9f1c2b7a" ++ replicate n 0x30)
          (fun _ => [])
          (fun _ _ => None).

(** A classifier that answers once and fails from then on. *)
Definition failing_outside : outside :=
  Outside (fun n _ => match n with
                      | O => Ok (DictMessage (Some (lit "あり")))
                      | _ => Raise (ServiceError 429)
                      end)
          (fun n => lit "9f1c2b7a" ++ replicate n 0x30)
          (fun _ => [])
          (fun _ _ => None).

Definition fresh_logger : logger := Logger [] 0 true.

Definition root_logger : logger := Logger [] 30 true.

Definition world_of (f : option csv_file) : world :=
  World ∅ f fresh_logger [root_logger] [].

(** The catalogue of the example: rows Widget and Gadget under [name]. *)
Definition widget_file : csv_file := [[lit "name"]; [lit "Widget"]; [lit "Gadget"]].

(** A row with a field more than the header has names. *)
Definition ragged_file : csv_file := [[lit "name"]; [lit "Widget"; lit "100"]].

(** A header that names a column twice. *)
Definition twice_named_file : csv_file :=
  [[lit "name"; lit "name"]; [lit "Widget"; lit "Gadget"]].

(** A catalogue that has the column already. *)
Definition enriched_widget_file : csv_file :=
  [[lit "name"; lit "stock_status"]; [lit "Widget"; lit "あり"]].


(** A catalogue with a row that lacks its last field. *)
Definition short_row_file : csv_file :=
  [[lit "name"; lit "price"]; [lit "Widget"]; []; [lit "Gadget"; lit "12"]].

(** The session state of a session whose identifier is [id]. *)
Definition session_of (id : pystr) : gmap string value :=
  {["session_id" := VStr id]}.

(** A process in which the root logger was given a handler. *)
Definition root_configured_world : world :=
  World (session_of (lit "9f1c2b7a")) None fresh_logger
        [Logger [Handler (lit "stderr") [] [] None] 30 true] [].

(** The world a run on the ragged file starts from, and the one on the
    file whose header names a column twice. *)
Definition ragged_world : world := world_of (Some ragged_file).

Definition twice_named_world : world := world_of (Some twice_named_file).

(** ** More of what the statements speak of *)

(** The call of the model for a row, as the trace records it. *)
Definition row_event (py : python) (names r : list pystr) : event :=
  EvChatCompletion system_prompt (row_prompt py names r).

(** A catalogue [initialize_stock_status] leaves alone: it has no row,
    or its first row is empty or has [stock_status]. *)
Definition needs_no_column (f : csv_file) : bool :=
  match f with
  | [] => true
  | header :: _ => bool_decide (header = []) || bool_decide (lit "stock_status" ∈ header)
  end.

(** The documents of a catalogue as the retriever gets them. *)
Definition retriever_docs (py : python) (out : outside) (f : csv_file) : list value :=
  adjust_doc py <$> csv_loader_load out f.

(** The retriever over a catalogue: the lexical one and the one of the
    vector store, under the configured weights. *)
Definition built_retriever (ct : constants) (py : python) (out : outside) (f : csv_file)
  : value :=
  VEnsembleRetriever
    [VBM25Retriever (page_content_of <$> retriever_docs py out f) (TOP_K ct);
     VVectorStoreRetriever (VChroma (retriever_docs py out f) VOpenAIEmbeddings) (TOP_K ct)]
    (RETRIEVER_WEIGHTS ct).

(** The calls of one build of the retriever, in order. *)
Definition build_events (ct : constants) (py : python) (out : outside) (f : csv_file)
  : list event :=
  [EvCSVLoader (RAG_SOURCE_PATH ct);
   EvOpenAIEmbeddings;
   EvChromaFromDocuments (retriever_docs py out f);
   EvBM25FromTexts (page_content_of <$> retriever_docs py out f);
   EvEnsembleRetriever].

(** A catalogue, as it is stored, with a carriage return in a (quoted)
    field. *)
Definition carriage_return_file : csv_file :=
  [[lit "name"]; [lit "Wid" ++ [0x0D] ++ lit "get"]].

(** The client as the library makes it: every completion returns, its
    message a [ChatCompletionMessage] with the reply as content. *)
Definition library_outside (reply : pystr) : outside :=
  Outside (fun _ _ => Ok (ChatCompletionMessage (Some reply)))
          (fun n => lit "9f1c2b7a" ++ replicate n 0x30)
          (fun _ => [])
          (fun _ _ => None).

(** The calls of [uuid4] in a trace. *)
Definition uuid4_calls (w : world) : nat := length (filter is_uuid4 (trace w)).

(** ** More of the sample deployment *)

(** A catalogue without the column [name]. *)
Definition no_name_file : csv_file := [[lit "price"]; [lit "100"]].

(** A session that has a chat history and an identifier already. *)
Definition chat_session : gmap string value :=
  <["messages" := VList [VStr (lit "hello")]]> (session_of (lit "0d4e81c3")).

(** A loader that makes one document of each row below the header. *)
Definition row_documents (f : csv_file) : list value :=
  (fun r => VDocument (VStr (concat r)) {["source" := VStr (lit "./data/products.csv")]})
    <$> tail f.

Definition loading_outside : outside :=
  Outside (fun n _ => match n with
                      | O => Ok (DictMessage (Some (lit "あり")))
                      | _ => Ok (DictMessage (Some (lit "残りわずか")))
                      end)
          (fun n => lit "9f1c2b7a" ++ replicate n 0x30)
          row_documents
          (fun _ _ => None).

(** A vector store that cannot be built. *)
Definition no_store_outside : outside :=
  Outside (fun n _ => Ok (DictMessage (Some (lit "あり"))))
          (fun n => lit "9f1c2b7a" ++ replicate n 0x30)
          row_documents
          (fun _ ev => if is_vector_store_build ev then Some (ServiceError 503) else None).

(** * Properties *)

(** ** The definitions at work *)

Example lit_labels :
  stock_labels = [[0x3042; 0x308A]; [0x6B8B; 0x308A; 0x308F; 0x305A; 0x304B]; [0x306A; 0x3057]].
Proof. reflexivity. Qed.

Example strip_reply : strip (lit "  あり　" ++ LF) = lit "あり".
Proof. reflexivity. Qed.

Example strip_inner_space : strip (lit " 残り わずか ") = lit "残り わずか".
Proof. reflexivity. Qed.

Example checked_label_fallback : checked_label (lit "在庫あり") = lit "なし".
Proof. reflexivity. Qed.

(** Empty rows are skipped, and a short row is written with empty fields
    for the names it lacks. *)
Example short_row_enriched :
  catalog (initialize_stock_status linux stub_outside (world_of (Some short_row_file))).2
  = Some [[lit "name"; lit "price"; lit "stock_status"];
          [lit "Widget"; []; lit "あり"];
          [lit "Gadget"; lit "12"; lit "残りわずか"]].
Proof. reflexivity. Qed.

(** A file that has a header and nothing below it is not skipped: no call
    is made, and the header is written back with the new column. *)
Example header_only_enriched :
  initialize_stock_status linux stub_outside (world_of (Some [[lit "name"]]))
  = (Ok tt, world_of (Some [[lit "name"; lit "stock_status"]])).
Proof. reflexivity. Qed.

(** A file whose first line is empty has no field names, and is skipped. *)
Example empty_first_line_skipped :
  initialize_stock_status linux stub_outside (world_of (Some [[]; [lit "name"]; [lit "Widget"]]))
  = (Ok tt, world_of (Some [[]; [lit "name"]; [lit "Widget"]])).
Proof. reflexivity. Qed.

(** A handler on the root logger counts for [hasHandlers]: nothing is
    attached to the logger of the application. *)
Example root_handler_blocks :
  handlers (app_logger (initialize_logger sample_ct linux stub_outside root_configured_world).2)
  = [].
Proof. reflexivity. Qed.

(** On the miniature of Windows the angstrom sign is normalised to a
    character the code page lacks and dropped, and the wave dash comes back
    as the fullwidth tilde. *)
Example adjust_string_windows :
  adjust_string windows (VStr [0x31; 0x212B; 0x20; 0x301C; 0x20; 0x32])
  = VStr [0x31; 0x20; 0xFF5E; 0x20; 0x32].
Proof. reflexivity. Qed.

(** ** The sanitiser *)

(** C5. For every value that is not a [str], on every platform,
    [adjust_string] returns the value as it is. *)
Theorem adjust_string_not_str (py : python) (v : value) :
  is_str v = false -> adjust_string py v = v.
Proof. destruct v; simpl; intros H; try reflexivity; discriminate H. Qed.

Lemma adjust_string_not_str_witness :
  adjust_string windows (VList [VInt 3; VNone]) = VList [VInt 3; VNone].
Proof. apply adjust_string_not_str. reflexivity. Defined.

(** C6. On a platform whose name does not start with ["win"],
    [adjust_string] returns every string as it is. *)
Theorem adjust_string_off_windows (py : python) (s : pystr) :
  on_windows py = false -> adjust_string py (VStr s) = VStr s.
Proof. intros H. unfold adjust_string. rewrite H. reflexivity. Qed.

Lemma adjust_string_off_windows_witness :
  adjust_string linux (VStr [0x212B; 0x301C]) = VStr [0x212B; 0x301C].
Proof. apply adjust_string_off_windows. reflexivity. Defined.

Section Sanitizer.
Context (py : python) `{!SanitizerLaws py}.

Lemma omap_fixed {A} (f : A -> option A) (t : list A) :
  Forall (fun c => f c = Some c) t -> omap f t = t.
Proof.
  induction 1 as [|c t Hc _ IH]; simpl; [reflexivity|].
  rewrite Hc. simpl. f_equal. exact IH.
Qed.

(** What one pass keeps are normalised characters that the code page
    gives back as they are. *)
Lemma pass_characters (s : pystr) :
  Forall (fun c => cp932_canonical py c = Some c /\ normalize_NFC py [c] = [c])
    (omap (cp932_canonical py) (normalize_NFC py s)).
Proof.
  apply Forall_forall. intros c' Hc'.
  apply list_elem_of_omap in Hc' as (c & Hin & Hc).
  split.
  - eapply canonical_fixed, Hc.
  - eapply canonical_normalized; [|exact Hc]. eapply normalized_chars, Hin.
Qed.

Lemma sanitize_pass (s : pystr) :
  on_windows py = true ->
  adjust_string py (VStr s) = VStr (omap (cp932_canonical py) (normalize_NFC py s)).
Proof.
  intros Hwin. unfold adjust_string. rewrite Hwin.
  rewrite decode_encode_ignore. reflexivity.
Qed.
End Sanitizer.

(** C10. On Windows [adjust_string] is idempotent on strings: a second
    pass leaves the result of the first as it is, for a normaliser and a
    code page that keep the laws [SanitizerLaws]. *)
Theorem adjust_string_idempotent (py : python) (s : pystr) :
  SanitizerLaws py -> on_windows py = true ->
  adjust_string py (adjust_string py (VStr s)) = adjust_string py (VStr s).
Proof.
  intros Hlaws Hwin.
  rewrite (sanitize_pass py s Hwin).
  rewrite (sanitize_pass py _ Hwin).
  pose proof (pass_characters py s) as Hcan.
  rewrite (canonical_NFC _ Hcan).
  rewrite omap_fixed; [reflexivity|].
  eapply Forall_impl; [exact Hcan|]. intros c [Hc _]. exact Hc.
Qed.

Lemma mini_canonical (c : N) :
  cp932_canonical windows c
  = if c <? 0x80 then Some c
    else if (c =? 0x301C) || (c =? 0xFF5E) then Some 0xFF5E
    else if c =? 0x212B then Some 0x212B
    else None.
Proof.
  unfold cp932_canonical. cbn [cp932_encode_char cp932_decode windows].
  unfold mini_encode_char.
  destruct (c <? 0x80) eqn:Hc; [cbn; rewrite Hc; reflexivity|].
  destruct ((c =? 0x301C) || (c =? 0xFF5E)); [reflexivity|].
  destruct (c =? 0x212B); reflexivity.
Qed.

Lemma mini_decode_encode (s : pystr) :
  mini_decode (cp932_encode_ignore windows s) = omap (cp932_canonical windows) s.
Proof.
  induction s as [|c s IH]; [reflexivity|].
  change (cp932_encode_ignore windows (c :: s))
    with (default [] (mini_encode_char c) ++ cp932_encode_ignore windows s).
  cbn [omap list_omap]. fold (omap (cp932_canonical windows) s).
  rewrite mini_canonical. unfold mini_encode_char.
  destruct (c <? 0x80) eqn:Hc.
  - cbn. rewrite Hc. cbn. rewrite IH. reflexivity.
  - destruct ((c =? 0x301C) || (c =? 0xFF5E)) eqn:Hw.
    + cbn. rewrite IH. reflexivity.
    + destruct (c =? 0x212B) eqn:Ha.
      * cbn. rewrite IH. reflexivity.
      * cbn. apply IH.
Qed.

Lemma mini_NFC_char (c : N) :
  mini_NFC [c] = [c] <-> c ≠ 0x212B.
Proof.
  unfold mini_NFC. cbn. destruct (N.eqb_spec c 0x212B) as [-> | Hne].
  - split; [intros [=] | intros H; contradiction].
  - split; [intros _; exact Hne | reflexivity].
Qed.

#[local] Instance mini_laws : SanitizerLaws windows.
Proof.
  split.
  - apply mini_decode_encode.
  - intros c c'. rewrite !mini_canonical.
    destruct (c <? 0x80) eqn:Hc; [intros [= <-]; rewrite Hc; reflexivity|].
    destruct ((c =? 0x301C) || (c =? 0xFF5E)); [intros [= <-]; reflexivity|].
    destruct (c =? 0x212B); intros [= <-]; reflexivity.
  - intros s c Hin. cbn [normalize_NFC windows] in *. apply mini_NFC_char.
    unfold mini_NFC in Hin. apply list_elem_of_fmap in Hin as (x & -> & _).
    destruct (N.eqb_spec x 0x212B) as [-> | Hne]; [discriminate | exact Hne].
  - intros c c' Hn. cbn [normalize_NFC windows] in *. apply mini_NFC_char in Hn.
    rewrite mini_canonical. intros Hc. apply mini_NFC_char.
    destruct (c <? 0x80); [injection Hc as <-; exact Hn|].
    destruct ((c =? 0x301C) || (c =? 0xFF5E)); [injection Hc as <-; discriminate|].
    destruct (N.eqb_spec c 0x212B) as [Heq | _]; [contradiction | discriminate Hc].
  - intros t Ht. cbn [normalize_NFC windows].
    induction Ht as [|c t [_ Hc] _ IH]; [reflexivity|].
    cbn [normalize_NFC windows] in Hc.
    change (mini_NFC (c :: t)) with (mini_NFC [c] ++ mini_NFC t).
    rewrite Hc, IH. reflexivity.
Qed.

Lemma adjust_string_idempotent_witness :
  adjust_string windows (adjust_string windows (VStr [0x31; 0x212B; 0x20; 0x301C; 0x20; 0x32]))
  = adjust_string windows (VStr [0x31; 0x212B; 0x20; 0x301C; 0x20; 0x32]).
Proof. apply adjust_string_idempotent; [exact mini_laws | reflexivity]. Defined.

(** ** The classifier *)

Lemma checked_label_in (content : pystr) : checked_label content ∈ stock_labels.
Proof.
  unfold checked_label. case_bool_decide as H; [exact H|].
  unfold stock_labels. set_solver.
Qed.

(** The check of the label, for a content that the access has yielded (a
    stub's dict, see [message_content]): the stripped content when it is
    one of the three labels, ["なし"] when it is not. *)
Lemma generate_stock_status_label (py : python) (out : outside)
    (product_name : value) (w : world) (content : pystr) :
  chat_completion out (chat_calls w) (stock_prompt py product_name) = Ok content ->
  generate_stock_status py out product_name w
  = (Ok (checked_label content),
     log_event (EvChatCompletion system_prompt (stock_prompt py product_name)) w)
  /\ (strip content ∈ stock_labels -> checked_label content = strip content)
  /\ (strip content ∉ stock_labels -> checked_label content = lit "なし")
  /\ checked_label content ∈ stock_labels.
Proof.
  intros Hreply. repeat split.
  - unfold chat_completion in Hreply.
    unfold generate_stock_status, bind, chat_create, getitem_content, ret.
    destruct (chat_completions_create out _ _) as [m | e]; [|discriminate Hreply].
    rewrite Hreply. unfold checked_label, stock_labels. case_bool_decide; reflexivity.
  - intros Hin. unfold checked_label. rewrite bool_decide_eq_true_2 by exact Hin. reflexivity.
  - intros Hout. unfold checked_label. rewrite bool_decide_eq_false_2 by exact Hout. reflexivity.
  - apply checked_label_in.
Qed.

(** C2. With a client that offers [openai.chat] the call of line 205
    returns, and the message of its first choice is a
    [ChatCompletionMessage]; the subscript [message["content"]] of line 214
    then raises [TypeError], whatever the reply is.  So
    [generate_stock_status] returns no label, neither the stripped reply
    nor the fallback: the exception leaves it after the one call. *)
Theorem generate_stock_status_not_subscriptable (py : python) (out : outside)
    (product_name : value) (w : world) (content : option pystr) :
  chat_completions_create out (chat_calls w) (stock_prompt py product_name)
  = Ok (ChatCompletionMessage content) ->
  generate_stock_status py out product_name w
  = (Raise TypeError,
     log_event (EvChatCompletion system_prompt (stock_prompt py product_name)) w).
Proof.
  intros Hreply. unfold generate_stock_status, bind, chat_create, getitem_content.
  rewrite Hreply. reflexivity.
Qed.

Lemma generate_stock_status_not_subscriptable_witness :
  generate_stock_status linux (library_outside (lit "あり")) (VStr (lit "Widget"))
    (world_of None)
  = (Raise TypeError,
     log_event (EvChatCompletion system_prompt (stock_prompt linux (VStr (lit "Widget"))))
       (world_of None)).
Proof.
  apply (generate_stock_status_not_subscriptable linux (library_outside (lit "あり"))
           (VStr (lit "Widget")) (world_of None) (Some (lit "あり"))).
  reflexivity.
Defined.

(** ** The session *)

(** C7. When [session_id] is in the session state, [initialize_session_id]
    leaves the state as it is; after a first call it is there, so a second
    call in the same session makes no second identifier. *)
Theorem session_id_stable (out : outside) (w : world) :
  (is_Some (session_state w !! "session_id") -> initialize_session_id out w = (Ok tt, w))
  /\ (let w1 := (initialize_session_id out w).2 in
      is_Some (session_state w1 !! "session_id")
      /\ initialize_session_id out w1 = (Ok tt, w1)).
Proof.
  assert (Hkeep : forall w0, is_Some (session_state w0 !! "session_id") ->
                             initialize_session_id out w0 = (Ok tt, w0)).
  { intros w0 H0. unfold initialize_session_id, bind, in_session, gets.
    rewrite bool_decide_eq_true_2 by exact H0. reflexivity. }
  split; [apply Hkeep|].
  assert (Hthere : is_Some (session_state (initialize_session_id out w).2 !! "session_id")).
  { unfold initialize_session_id, bind, in_session, gets.
    case_bool_decide as H; simpl; [exact H|].
    rewrite lookup_insert_eq. eauto. }
  simpl. split; [exact Hthere | apply Hkeep, Hthere].
Qed.

Lemma session_id_stable_witness :
  initialize_session_id stub_outside
    (set_session_state (fun s => <["session_id" := VStr (lit "9f1c2b7a")]> s) (world_of None))
  = (Ok tt,
     set_session_state (fun s => <["session_id" := VStr (lit "9f1c2b7a")]> s) (world_of None)).
Proof.
  apply (proj1 (session_id_stable stub_outside _)).
  simpl. rewrite lookup_insert_eq. eauto.
Defined.

(** ** The retriever *)

Lemma vector_store_builds_log (ev : event) (w : world) :
  vector_store_builds (log_event ev w)
  = (vector_store_builds w + (if is_vector_store_build ev then 1 else 0))%nat.
Proof.
  unfold vector_store_builds, log_event. simpl.
  rewrite filter_app, length_app. simpl.
  destruct ev; simpl; reflexivity.
Qed.

Lemma initialize_retriever_present (ct : constants) (py : python) (out : outside) (w : world) :
  is_Some (session_state w !! "retriever") ->
  initialize_retriever ct py out w = (Ok tt, w).
Proof.
  intros H. unfold initialize_retriever, bind, in_session, gets.
  rewrite bool_decide_eq_true_2 by exact H. reflexivity.
Qed.

(** What a call that returns has done when the retriever was not there:
    one build of the vector store, and the retriever is in the session. *)
Lemma initialize_retriever_absent (ct : constants) (py : python) (out : outside)
    (w w1 : world) :
  session_state w !! "retriever" = None ->
  initialize_retriever ct py out w = (Ok tt, w1) ->
  is_Some (session_state w1 !! "retriever")
  /\ vector_store_builds w1 = S (vector_store_builds w).
Proof.
  intros Habs. unfold initialize_retriever, bind, in_session, gets.
  rewrite bool_decide_eq_false_2 by (rewrite Habs; intros [? [=]]).
  unfold loader_load, bind, external, ret, setattr_session, modify.
  destruct (raises out (trace w) (EvCSVLoader (RAG_SOURCE_PATH ct))); [intros [=]|].
  cbn [catalog log_event]. destruct (catalog w) as [f|]; [|intros [=]].
  repeat
    match goal with
    | |- context [raises out ?t ?e] => destruct (raises out t e); [intros [=]|]; cbn iota beta
    end.
  intros [= <-]. split.
  - simpl. rewrite lookup_insert_eq. eauto.
  - unfold vector_store_builds. simpl.
    rewrite <- !app_assoc, filter_app, length_app. simpl. lia.
Qed.

(** C8. With [retriever] in the session state, [initialize_retriever]
    returns at once: nothing is loaded, embedded or built, and the state is
    as it was.  So of two calls in a session that had none, the first of
    which returns, the vector store is built exactly once. *)
Theorem retriever_built_once (ct : constants) (py : python) (out : outside) :
  (forall w, is_Some (session_state w !! "retriever") ->
     initialize_retriever ct py out w = (Ok tt, w))
  /\ (forall w w1, session_state w !! "retriever" = None ->
        initialize_retriever ct py out w = (Ok tt, w1) ->
        initialize_retriever ct py out w1 = (Ok tt, w1)
        /\ vector_store_builds w1 = S (vector_store_builds w)).
Proof.
  split; [apply initialize_retriever_present|].
  intros w w1 Habs Hrun.
  destruct (initialize_retriever_absent ct py out w w1 Habs Hrun) as [Hin Hn].
  split; [apply initialize_retriever_present, Hin | exact Hn].
Qed.

Lemma retriever_built_once_witness :
  let w1 := (initialize_retriever sample_ct linux stub_outside (world_of (Some widget_file))).2 in
  initialize_retriever sample_ct linux stub_outside w1 = (Ok tt, w1)
  /\ vector_store_builds w1 = 1%nat.
Proof.
  apply (proj2 (retriever_built_once sample_ct linux stub_outside)
           (world_of (Some widget_file))); reflexivity.
Defined.

(** ** The logger *)

Section Logger.
Context (ct : constants) (py : python) (out : outside).

Lemma hasHandlers_own (l : logger) (parents : list logger) :
  handlers l ≠ [] -> hasHandlers l parents = true.
Proof. destruct l as [[|h hs] lv pr], parents; simpl; congruence. Qed.

(** A logger with a handler: the call makes the directory and returns. *)
Lemma initialize_logger_attached (w : world) :
  handlers (app_logger w) ≠ [] ->
  initialize_logger ct py out w = (Ok tt, log_event (EvMakedirs (LOG_DIR_PATH ct)) w)
  \/ exists e,
       initialize_logger ct py out w = (Raise e, log_event (EvMakedirs (LOG_DIR_PATH ct)) w).
Proof.
  intros Hh. unfold initialize_logger, bind, external, gets.
  destruct (raises out (trace w) (EvMakedirs (LOG_DIR_PATH ct))) as [e|]; [right; eauto|].
  left. cbn [app_logger logger_parents log_event].
  rewrite hasHandlers_own by exact Hh. reflexivity.
Qed.

(** One call: the handlers stay, or there were none and the one made
    with the session's identifier is the only one now. *)
Lemma initialize_logger_step (w : world) :
  let w' := (initialize_logger ct py out w).2 in
  logger_parents w' = logger_parents w
  /\ (app_logger w' = app_logger w
      \/ (handlers (app_logger w) = []
          /\ exists session_id,
               session_state w !! "session_id" = Some session_id
               /\ handlers (app_logger w') = [log_handler_of ct py session_id])).
Proof.
  unfold initialize_logger, bind, external, gets, getattr_session, modify, ret.
  destruct (raises out (trace w) (EvMakedirs (LOG_DIR_PATH ct))) as [e|];
    [simpl; auto|].
  cbn [app_logger logger_parents log_event].
  destruct (hasHandlers (app_logger w) (logger_parents w)) eqn:Hhas; [simpl; auto|].
  cbn [trace].
  destruct (raises out _ (EvTimedRotatingFileHandler _)) as [e|]; [simpl; auto|].
  cbn [session_state log_event].
  destruct (session_state w !! "session_id") as [sid|] eqn:Hsid; [|simpl; auto].
  simpl. split; [reflexivity|]. right.
  assert (Hnil : handlers (app_logger w) = []).
  { destruct (handlers (app_logger w)) eqn:Hl; [reflexivity|].
    rewrite hasHandlers_own in Hhas by (rewrite Hl; discriminate). discriminate Hhas. }
  split; [exact Hnil|]. exists sid. split; [reflexivity|].
  rewrite Hnil. reflexivity.
Qed.

Lemma serve_loggers_cons (s : gmap string value) (sessions : list (gmap string value))
    (w : world) :
  serve_loggers ct py out (s :: sessions) w
  = serve_loggers ct py out sessions
      (initialize_logger ct py out (set_session_state (fun _ => s) w)).2.
Proof. reflexivity. Qed.

Lemma serve_loggers_keeps (sessions : list (gmap string value)) (w : world) :
  handlers (app_logger w) ≠ [] ->
  app_logger (serve_loggers ct py out sessions w) = app_logger w.
Proof.
  revert w. induction sessions as [|s sessions IH]; intros w Hh; [reflexivity|].
  rewrite serve_loggers_cons.
  set (w0 := set_session_state (fun _ => s) w).
  assert (Hkeep : app_logger (initialize_logger ct py out w0).2 = app_logger w).
  { destruct (initialize_logger_attached w0 Hh) as [-> | [e ->]]; reflexivity. }
  rewrite IH; [exact Hkeep | rewrite Hkeep; exact Hh].
Qed.

Lemma serve_loggers_once (sessions : list (gmap string value)) (w : world) :
  handlers (app_logger w) = [] ->
  let w' := serve_loggers ct py out sessions w in
  handlers (app_logger w') = []
  \/ exists s session_id,
       s ∈ sessions /\ s !! "session_id" = Some session_id
       /\ handlers (app_logger w') = [log_handler_of ct py session_id].
Proof.
  revert w. induction sessions as [|s sessions IH]; intros w Hnil; [left; exact Hnil|].
  rewrite serve_loggers_cons.
  set (w0 := set_session_state (fun _ => s) w).
  destruct (initialize_logger_step w0) as [_ [Hsame | (_ & sid & Hsid & Hone)]].
  - destruct (IH (initialize_logger ct py out w0).2) as [H | (s' & sid & Hin & Hsid & H)].
    + rewrite Hsame. exact Hnil.
    + left. exact H.
    + right. exists s', sid. split; [right; exact Hin | auto].
  - right. exists s, sid. split; [left|split; [exact Hsid|]].
    rewrite serve_loggers_keeps by (rewrite Hone; discriminate). exact Hone.
Qed.

(** C9. [initialize_logger] attaches a handler only to a logger that has
    none, and the format of that handler holds the session identifier of
    the state it was called in; a logger that has a handler is left as it
    is by every later call; so a process that starts with no handler on
    the logger and serves any sessions has at most one, formatted with the
    identifier of the session that attached it. *)
Theorem logger_attached_once :
  (forall w,
     let w' := (initialize_logger ct py out w).2 in
     app_logger w' = app_logger w
     \/ (handlers (app_logger w) = []
         /\ exists session_id,
              session_state w !! "session_id" = Some session_id
              /\ handlers (app_logger w')
                 = [Handler (os_path_join py (LOG_DIR_PATH ct) (LOG_FILE ct))
                            (lit "D") (lit "utf8") (Some (log_format py session_id))]))
  /\ (forall w, handlers (app_logger w) ≠ [] ->
        app_logger (initialize_logger ct py out w).2 = app_logger w
        /\ (raises out (trace w) (EvMakedirs (LOG_DIR_PATH ct)) = None ->
            initialize_logger ct py out w
            = (Ok tt, log_event (EvMakedirs (LOG_DIR_PATH ct)) w)))
  /\ (forall sessions w, handlers (app_logger w) = [] ->
        let w' := serve_loggers ct py out sessions w in
        (length (handlers (app_logger w')) <= 1)%nat
        /\ forall h, h ∈ handlers (app_logger w') ->
             exists s session_id,
               s ∈ sessions /\ s !! "session_id" = Some session_id
               /\ h_formatter h = Some (log_format py session_id)).
Proof.
  split; [|split].
  - intros w. apply (initialize_logger_step w).
  - intros w Hh. split.
    + destruct (initialize_logger_attached w Hh) as [-> | [e ->]]; reflexivity.
    + intros Hdir. unfold initialize_logger, bind, external, gets. rewrite Hdir.
      cbn [app_logger logger_parents log_event].
      rewrite hasHandlers_own by exact Hh. reflexivity.
  - intros sessions w Hnil.
    destruct (serve_loggers_once sessions w Hnil) as [H | (s & sid & Hin & Hsid & H)];
      cbv zeta; rewrite H.
    + split; [simpl; lia|]. intros h Hh. inversion Hh.
    + split; [simpl; lia|]. intros h Hh.
      apply list_elem_of_singleton in Hh as ->. exists s, sid. auto.
Qed.
End Logger.

(** Two sessions served by one process: the handler is the first one's. *)
Lemma logger_attached_once_witness :
  (length (handlers (app_logger
     (serve_loggers sample_ct linux stub_outside
        [session_of (lit "9f1c2b7a"); session_of (lit "0d4e81c3")] (world_of None))))
   <= 1)%nat
  /\ forall h,
       h ∈ handlers (app_logger
             (serve_loggers sample_ct linux stub_outside
                [session_of (lit "9f1c2b7a"); session_of (lit "0d4e81c3")] (world_of None))) ->
       exists s session_id,
         s ∈ [session_of (lit "9f1c2b7a"); session_of (lit "0d4e81c3")]
         /\ s !! "session_id" = Some session_id
         /\ h_formatter h = Some (log_format linux session_id).
Proof.
  apply (proj2 (proj2 (logger_attached_once sample_ct linux stub_outside))
           [session_of (lit "9f1c2b7a"); session_of (lit "0d4e81c3")] (world_of None)).
  reflexivity.
Defined.

(** ** csv.DictReader and csv.DictWriter *)

Section Dicts.
Implicit Types (d : gmap pystr value) (ks vs names r : list pystr) (k v : pystr).

(** The loop of [dict(zip(ks, vs))], from a dictionary [d]. *)
Local Abbreviation zip_into d ks vs :=
  (foldl (fun d0 (kv : pystr * pystr) => <[kv.1 := VStr kv.2]> d0) d (zip ks vs)).

(** The loop [for key in ks: d[key] = None]. *)
Local Abbreviation none_into d ks :=
  (foldl (fun d0 (key : pystr) => <[key := VNone]> d0) d ks).

Lemma zip_into_notin d ks vs k :
  k ∉ ks -> zip_into d ks vs !! k = d !! k.
Proof.
  revert d vs. induction ks as [|k0 ks IH]; intros d [|v0 vs] Hk; try reflexivity.
  apply not_elem_of_cons in Hk as [Hne Hk]. simpl.
  rewrite IH by exact Hk. apply lookup_insert_ne. congruence.
Qed.

Lemma zip_into_mono d ks vs k :
  is_Some (d !! k) -> is_Some (zip_into d ks vs !! k).
Proof.
  revert d vs. induction ks as [|k0 ks IH]; intros d [|v0 vs] Hk; try exact Hk.
  simpl. apply IH. apply lookup_insert_is_Some'. auto.
Qed.

Lemma zip_into_covers d ks vs i k :
  ks !! i = Some k -> (i < length vs)%nat -> is_Some (zip_into d ks vs !! k).
Proof.
  revert d vs i. induction ks as [|k0 ks IH]; intros d [|v0 vs] i Hk Hi;
    try discriminate Hk; simpl in Hi; try lia.
  destruct i as [|i]; simpl in *.
  - injection Hk as ->. apply zip_into_mono. rewrite lookup_insert_eq. eauto.
  - apply (IH _ _ i); [exact Hk | lia].
Qed.

Lemma zip_into_is_Some d ks vs k :
  is_Some (zip_into d ks vs !! k) -> k ∈ ks \/ is_Some (d !! k).
Proof.
  revert d vs. induction ks as [|k0 ks IH]; intros d [|v0 vs] Hk; auto.
  simpl in Hk. apply IH in Hk as [Hk | Hk]; [left; right; exact Hk|].
  apply lookup_insert_is_Some' in Hk as [-> | Hk]; [left; left | right; exact Hk].
Qed.

Lemma zip_into_nodup d ks vs i k v :
  NoDup ks -> ks !! i = Some k -> vs !! i = Some v ->
  zip_into d ks vs !! k = Some (VStr v).
Proof.
  revert d vs i. induction ks as [|k0 ks IH]; intros d [|v0 vs] i Hnd Hk Hv;
    try discriminate Hk; try discriminate Hv.
  apply NoDup_cons in Hnd as [Hk0 Hnd].
  destruct i as [|i]; simpl in *.
  - injection Hk as ->. injection Hv as ->.
    rewrite zip_into_notin by exact Hk0. apply lookup_insert_eq.
  - apply (IH _ _ i); assumption.
Qed.

Lemma zip_into_self d ks k :
  k ∈ ks -> zip_into d ks ks !! k = Some (VStr k).
Proof.
  revert d. induction ks as [|k0 ks IH]; intros d Hk; [inversion Hk|].
  simpl. destruct (decide (k ∈ ks)) as [Hin | Hout]; [apply IH, Hin|].
  apply elem_of_cons in Hk as [-> | Hk]; [|contradiction].
  rewrite zip_into_notin by exact Hout. apply lookup_insert_eq.
Qed.

Lemma none_into_lookup d ks k :
  none_into d ks !! k = if decide (k ∈ ks) then Some VNone else d !! k.
Proof.
  revert d. induction ks as [|k0 ks IH]; intros d; simpl.
  - destruct (decide (k ∈ [])) as [H|]; [inversion H | reflexivity].
  - rewrite IH. destruct (decide (k ∈ ks)) as [Hin | Hout].
    + rewrite decide_True by (right; exact Hin). reflexivity.
    + destruct (decide (k = k0)) as [-> | Hne].
      * rewrite decide_True by left. apply lookup_insert_eq.
      * rewrite decide_False by (intros [? | ?]%elem_of_cons; contradiction).
        apply lookup_insert_ne. congruence.
Qed.

(** Every name of the header is a key of the row, whatever its length. *)
Lemma reader_next_has_names names r k :
  k ∈ names -> is_Some (fields (reader_next names r) !! k).
Proof.
  intros [i Hi]%list_elem_of_lookup. pose proof (lookup_lt_Some _ _ _ Hi) as Hlt.
  unfold reader_next, dict_zip.
  destruct (Nat.ltb_spec (length names) (length r)) as [H1 | H1]; cbn [fields].
  - apply (zip_into_covers _ _ _ i); [exact Hi | lia].
  - destruct (Nat.ltb_spec (length r) (length names)) as [H2 | H2]; cbn [fields].
    + rewrite none_into_lookup.
      destruct (decide (k ∈ drop (length r) names)) as [Hin | Hout]; [eauto|].
      apply (zip_into_covers _ _ _ i); [exact Hi|].
      destruct (Nat.lt_ge_cases i (length r)) as [? | Hge]; [assumption|].
      exfalso. apply Hout. apply list_elem_of_lookup. exists (i - length r)%nat.
      rewrite lookup_drop. rewrite <- Hi. f_equal. lia.
    + apply (zip_into_covers _ _ _ i); [exact Hi | lia].
Qed.

(** And the row has no other key. *)
Lemma reader_next_keys names r k :
  is_Some (fields (reader_next names r) !! k) -> k ∈ names.
Proof.
  unfold reader_next, dict_zip.
  assert (Hz : is_Some (zip_into ∅ names r !! k) -> k ∈ names).
  { intros [H | H]%zip_into_is_Some; [exact H|].
    rewrite lookup_empty in H. destruct H as [? [=]]. }
  destruct (length names <? length r)%nat; cbn [fields]; [exact Hz|].
  destruct (length r <? length names)%nat; cbn [fields]; [|exact Hz].
  rewrite none_into_lookup.
  destruct (decide (k ∈ drop (length r) names)) as [Hin | Hout]; [|exact Hz].
  intros _. apply list_elem_of_lookup in Hin as [j Hj]. rewrite lookup_drop in Hj.
  apply list_elem_of_lookup. eauto.
Qed.

(** Under a header without repeated names, a row no longer than the header
    has its [i]-th value under the [i]-th name, and [None] under the names
    it is too short for. *)
Lemma reader_next_lookup names r i k :
  NoDup names -> (length r <= length names)%nat -> names !! i = Some k ->
  fields (reader_next names r) !! k
  = Some (match r !! i with Some v => VStr v | None => VNone end).
Proof.
  intros Hnd Hlen Hi. unfold reader_next, dict_zip.
  destruct (Nat.ltb_spec (length names) (length r)) as [H1 | H1]; [lia|].
  destruct (Nat.ltb_spec (length r) (length names)) as [H2 | H2]; cbn [fields].
  - rewrite none_into_lookup.
    destruct (decide (k ∈ drop (length r) names)) as [Hin | Hout].
    + apply list_elem_of_lookup in Hin as [j Hj]. rewrite lookup_drop in Hj.
      pose proof (NoDup_lookup _ _ _ _ Hnd Hi Hj) as ->.
      rewrite (lookup_ge_None_2 r) by lia. reflexivity.
    + destruct (r !! i) as [v|] eqn:Hv.
      * apply (zip_into_nodup _ _ _ i); assumption.
      * exfalso. apply Hout. apply lookup_ge_None in Hv.
        apply list_elem_of_lookup. exists (i - length r)%nat.
        rewrite lookup_drop. rewrite <- Hi. f_equal. lia.
  - pose proof (lookup_lt_Some _ _ _ Hi) as Hlt.
    destruct (lookup_lt_is_Some_2 r i) as [v Hv]; [lia|].
    rewrite Hv. apply (zip_into_nodup _ _ _ i); assumption.
Qed.

Lemma reader_next_no_rest names r :
  (length r <= length names)%nat -> restkey_None (reader_next names r) = None.
Proof.
  intros Hlen. unfold reader_next.
  destruct (Nat.ltb_spec (length names) (length r)) as [H1 | H1]; [lia|].
  destruct (length r <? length names)%nat; reflexivity.
Qed.

(** The header row: [writeheader] writes the names as they are. *)
Lemma dict_to_list_header (py : python) names :
  dict_to_list py names (RowDict (dict_zip names names) None) = Ok names.
Proof.
  unfold dict_to_list. cbn [restkey_None fields].
  rewrite bool_decide_eq_true_2 by reflexivity.
  rewrite bool_decide_eq_true_2.
  - simpl. f_equal. rewrite <- (list_fmap_id names) at 2.
    apply list_fmap_ext. intros i k Hk. unfold dict_zip.
    rewrite zip_into_self by (apply list_elem_of_lookup; eauto). reflexivity.
  - intros k [H | H]%elem_of_dom%zip_into_is_Some.
    + apply elem_of_list_to_set. exact H.
    + rewrite lookup_empty in H. destruct H as [? [=]].
Qed.

(** A row of the reader, with its label, as the writer writes it. *)
Lemma dict_to_list_row (py : python) names r label :
  NoDup names -> lit "stock_status" ∉ names -> (length r <= length names)%nat ->
  dict_to_list py (names ++ [lit "stock_status"])
    (setitem (reader_next names r) (lit "stock_status") (VStr label))
  = Ok (r ++ replicate (length names - length r) [] ++ [label]).
Proof.
  intros Hnd Hss Hlen. unfold dict_to_list, setitem. cbn [restkey_None fields].
  rewrite reader_next_no_rest by exact Hlen.
  rewrite bool_decide_eq_true_2 by reflexivity.
  rewrite bool_decide_eq_true_2.
  - simpl. f_equal. rewrite fmap_app. simpl. rewrite lookup_insert_eq. simpl.
    rewrite app_assoc. f_equal.
    apply list_eq. intros i. rewrite list_lookup_fmap.
    destruct (names !! i) as [k|] eqn:Hk; simpl.
    + assert (k ≠ lit "stock_status") as Hne.
      { intros ->. apply Hss. apply list_elem_of_lookup. eauto. }
      rewrite lookup_insert_ne by congruence.
      rewrite (reader_next_lookup names r i k Hnd Hlen Hk).
      pose proof (lookup_lt_Some _ _ _ Hk) as Hlt.
      destruct (r !! i) as [v|] eqn:Hv; simpl.
      * rewrite lookup_app_l by (eapply lookup_lt_Some; eauto). symmetry. exact Hv.
      * apply lookup_ge_None in Hv.
        rewrite lookup_app_r by exact Hv.
        symmetry. apply lookup_replicate_2. lia.
    + symmetry. apply lookup_ge_None. apply lookup_ge_None in Hk.
      rewrite length_app, length_replicate. lia.
  - intros k Hk. apply elem_of_list_to_set, elem_of_app.
    apply elem_of_dom in Hk. apply lookup_insert_is_Some' in Hk as [<- | Hk].
    + right. left.
    + left. apply (reader_next_keys names r). exact Hk.
Qed.
End Dicts.

(** ** The enricher *)

Section Enricher.
Context (py : python) (out : outside).
Implicit Types (names r : list pystr) (todo rows : csv_file) (w : world).

Lemma chat_calls_log (s u : pystr) w :
  chat_calls (log_event (EvChatCompletion s u) w) = S (chat_calls w).
Proof.
  unfold chat_calls, log_event. simpl.
  rewrite filter_app, length_app. simpl. lia.
Qed.

Lemma generate_stock_status_run (product_name : value) w :
  generate_stock_status py out product_name w
  = (match chat_completion out (chat_calls w) (stock_prompt py product_name) with
     | Ok content => Ok (checked_label content)
     | Raise e => Raise e
     end,
     log_event (EvChatCompletion system_prompt (stock_prompt py product_name)) w).
Proof.
  unfold generate_stock_status, bind, chat_create, getitem_content, ret, chat_completion.
  destruct (chat_completions_create out _ _) as [m | e]; [|reflexivity].
  destruct (message_content m) as [content | e]; [|reflexivity].
  unfold checked_label, stock_labels. case_bool_decide; reflexivity.
Qed.

(** One turn of the loop, under a header that has [name]. *)
Lemma enrich_rows_cons names r todo (acc : list row_dict) w :
  lit "name" ∈ names ->
  enrich_rows py out names (r :: todo) acc w
  = match chat_completion out (chat_calls w) (row_prompt py names r) with
    | Ok content =>
      enrich_rows py out names todo
        (acc ++ [enriched_row names r content])
        (log_event (EvChatCompletion system_prompt (row_prompt py names r)) w)
    | Raise e =>
      (Raise e, log_event (EvChatCompletion system_prompt (row_prompt py names r)) w)
    end.
Proof.
  intros Hname. cbn [enrich_rows]. unfold bind at 1, getitem, row_prompt.
  destruct (reader_next_has_names names r _ Hname) as [v Hv]. rewrite Hv.
  unfold ret at 1. cbn [default]. unfold bind at 1.
  rewrite generate_stock_status_run.
  destruct (chat_completion out _ _) as [content | e]; reflexivity.
Qed.

(** The loop reads and asks; it writes nothing. *)
Lemma enrich_rows_catalog names todo (acc : list row_dict) w :
  catalog (enrich_rows py out names todo acc w).2 = catalog w.
Proof.
  revert acc w. induction todo as [|r todo IH]; intros acc w; [reflexivity|].
  cbn [enrich_rows]. unfold bind at 1, getitem.
  destruct (fields (reader_next names r) !! lit "name") as [v|]; [|reflexivity].
  unfold ret at 1. unfold bind at 1. rewrite generate_stock_status_run.
  destruct (chat_completion out _ _) as [content | e]; [|reflexivity].
  rewrite IH. reflexivity.
Qed.

Lemma enrich_rows_ok names todo (answers : list pystr) (acc : list row_dict) w :
  lit "name" ∈ names ->
  length answers = length todo ->
  (forall i r a, todo !! i = Some r -> answers !! i = Some a ->
     chat_completion out (chat_calls w + i) (row_prompt py names r) = Ok a) ->
  exists w',
    enrich_rows py out names todo acc w
    = (Ok (acc ++ zip_with (enriched_row names) todo answers), w')
    /\ catalog w' = catalog w.
Proof.
  intros Hname. revert answers acc w.
  induction todo as [|r todo IH]; intros [|a answers] acc w Hlen Hans;
    try discriminate Hlen.
  - exists w. simpl. rewrite app_nil_r. auto.
  - rewrite enrich_rows_cons by exact Hname.
    rewrite <- (Nat.add_0_r (chat_calls w)), (Hans 0%nat r a) by reflexivity.
    destruct (IH answers (acc ++ [enriched_row names r a])
                (log_event (EvChatCompletion system_prompt (row_prompt py names r)) w))
      as (w' & Hrun & Hcat).
    + simpl in Hlen. lia.
    + intros i r' a' Hr' Ha'. rewrite chat_calls_log.
      replace (S (chat_calls w) + i)%nat with (chat_calls w + S i)%nat by lia.
      apply Hans; assumption.
    + exists w'. rewrite Hrun. cbn [zip_with]. rewrite <- app_assoc. auto.
Qed.

(** A call that raises ends the loop, with the exception of the first
    such call. *)
Lemma enrich_rows_raise names todo (acc : list row_dict) w (k : nat) r e :
  lit "name" ∈ names ->
  todo !! k = Some r ->
  chat_completion out (chat_calls w + k) (row_prompt py names r) = Raise e ->
  exists e' w' j r',
    enrich_rows py out names todo acc w = (Raise e', w')
    /\ (j <= k)%nat /\ todo !! j = Some r'
    /\ chat_completion out (chat_calls w + j) (row_prompt py names r') = Raise e'
    /\ catalog w' = catalog w /\ session_state w' = session_state w.
Proof.
  intros Hname. revert acc w k.
  induction todo as [|r0 todo IH]; intros acc w k Hk He; [discriminate Hk|].
  rewrite enrich_rows_cons by exact Hname.
  destruct (chat_completion out (chat_calls w) (row_prompt py names r0))
    as [content | e0] eqn:Hcall.
  - destruct k as [|k].
    { injection Hk as ->. rewrite Nat.add_0_r, Hcall in He. discriminate He. }
    destruct (IH (acc ++ [enriched_row names r0 content])
                (log_event (EvChatCompletion system_prompt (row_prompt py names r0)) w) k)
      as (e' & w' & j & r' & Hrun & Hj & Hr' & He' & Hcat & Hses).
    + exact Hk.
    + rewrite chat_calls_log.
      replace (S (chat_calls w) + k)%nat with (chat_calls w + S k)%nat by lia. exact He.
    + exists e', w', (S j), r'. rewrite chat_calls_log in He'.
      replace (S (chat_calls w) + j)%nat with (chat_calls w + S j)%nat in He' by lia.
      repeat split; try assumption. lia.
  - exists e0, (log_event (EvChatCompletion system_prompt (row_prompt py names r0)) w),
      0%nat, r0.
    rewrite Nat.add_0_r. repeat split; try assumption; try reflexivity. lia.
Qed.

Lemma writeheader_run names w :
  writeheader py names w
  = (Ok tt, set_catalog (Some (default [] (catalog w) ++ [names])) w).
Proof. unfold writeheader, dict_writerow. rewrite dict_to_list_header. reflexivity. Qed.

(** Whether it returns or raises, [writerows] only adds rows. *)
Lemma writerows_appends names (rows : list row_dict) w f :
  catalog w = Some f ->
  exists more, catalog (writerows py names rows w).2 = Some (f ++ more).
Proof.
  revert w f. induction rows as [|row rows IH]; intros w f Hf.
  - exists []. rewrite app_nil_r. exact Hf.
  - cbn [writerows]. unfold bind, dict_writerow.
    destruct (dict_to_list py names row) as [l | e].
    + unfold writerow, modify. rewrite Hf. change (default [] (Some f)) with f. cbv beta iota.
      destruct (IH (set_catalog (Some (f ++ [l])) w) (f ++ [l]) eq_refl) as [more Hmore].
      exists (l :: more). rewrite Hmore, <- app_assoc. reflexivity.
    + exists []. rewrite app_nil_r. exact Hf.
Qed.

Lemma writerows_ok names (rows : list row_dict) (lists : csv_file) w f :
  catalog w = Some f ->
  Forall2 (fun row l => dict_to_list py names row = Ok l) rows lists ->
  exists w', writerows py names rows w = (Ok tt, w') /\ catalog w' = Some (f ++ lists).
Proof.
  intros Hf Hall. revert w f Hf.
  induction Hall as [|row l rows lists Hrow _ IH]; intros w f Hf.
  - exists w. rewrite app_nil_r. auto.
  - cbn [writerows]. unfold bind, dict_writerow. rewrite Hrow.
    unfold writerow, modify. rewrite Hf. change (default [] (Some f)) with f. cbv beta iota.
    destruct (IH (set_catalog (Some (f ++ [l])) w) (f ++ [l]) eq_refl) as (w' & Hrun & Hcat).
    exists w'. rewrite Hrun, Hcat, <- app_assoc. auto.
Qed.

(** A run that returns has left the file as it was, or left a file whose
    header has [stock_status]. *)
Lemma initialize_stock_status_returns w w1 :
  initialize_stock_status py out w = (Ok tt, w1) ->
  w1 = w
  \/ exists header rest, catalog w1 = Some (header :: rest) /\ lit "stock_status" ∈ header.
Proof.
  unfold initialize_stock_status. unfold bind at 1, open_read.
  destruct (catalog w) as [f|] eqn:Hf; [|intros [=]].
  destruct (reader_fieldnames f) as [names|]; [|intros [= <-]; auto].
  destruct (bool_decide (names = []) || bool_decide (lit "stock_status" ∈ names));
    [intros [= <-]; auto|].
  unfold bind at 1.
  destruct (enrich_rows py out names (reader_rows f) [] w) as [[rows | e] w2] eqn:Hloop;
    [|intros [=]].
  unfold bind at 1, open_write, modify. unfold bind at 1. rewrite writeheader_run.
  cbn [catalog set_catalog default app].
  intros Hwrite. right.
  match type of Hwrite with
  | writerows py ?fn rows ?w3 = _ =>
    destruct (writerows_appends fn rows w3 [fn] eq_refl) as [more Hmore]
  end.
  rewrite Hwrite in Hmore. cbn [snd] in Hmore.
  eexists _, _. split; [exact Hmore|].
  apply elem_of_app. right. left.
Qed.

(** A file that needs nothing is left alone. *)
Lemma initialize_stock_status_skip w f :
  catalog w = Some f ->
  f = [] \/ (exists header rest, f = header :: rest /\ lit "stock_status" ∈ header) ->
  initialize_stock_status py out w = (Ok tt, w).
Proof.
  intros Hf Hskip. unfold initialize_stock_status, bind, open_read. rewrite Hf.
  destruct Hskip as [-> | (header & rest & -> & Hin)]; [reflexivity|].
  cbn [reader_fieldnames head].
  rewrite (bool_decide_eq_true_2 (lit "stock_status" ∈ header)) by exact Hin.
  rewrite orb_true_r. reflexivity.
Qed.
End Enricher.

(** C1. A catalogue without rows, or whose header has [stock_status],
    is left as it is and no classification is asked for; so after a run
    that returned, a second run changes nothing. *)
Theorem initialize_stock_status_idempotent (py : python) (out : outside) :
  (forall w f,
     catalog w = Some f ->
     f = [] \/ (exists header rest, f = header :: rest /\ lit "stock_status" ∈ header) ->
     initialize_stock_status py out w = (Ok tt, w))
  /\ (forall w w1,
        initialize_stock_status py out w = (Ok tt, w1) ->
        initialize_stock_status py out w1 = (Ok tt, w1)).
Proof.
  split; [apply initialize_stock_status_skip|].
  intros w w1 Hrun.
  destruct (initialize_stock_status_returns py out w w1 Hrun)
    as [-> | (header & rest & Hcat & Hin)]; [exact Hrun|].
  apply (initialize_stock_status_skip py out w1 (header :: rest) Hcat).
  right. eauto.
Qed.

Lemma initialize_stock_status_idempotent_witness :
  let w1 := (initialize_stock_status linux stub_outside (world_of (Some widget_file))).2 in
  initialize_stock_status linux stub_outside w1 = (Ok tt, w1)
  /\ initialize_stock_status linux stub_outside (world_of (Some enriched_widget_file))
     = (Ok tt, world_of (Some enriched_widget_file)).
Proof.
  split.
  - apply (proj2 (initialize_stock_status_idempotent linux stub_outside)
             (world_of (Some widget_file))).
    reflexivity.
  - apply (proj1 (initialize_stock_status_idempotent linux stub_outside)
             _ enriched_widget_file); [reflexivity|].
    right. eexists _, _. split; [reflexivity|]. right. left.
Defined.

Lemma enriched_rows_written (py : python) (names : list pystr) (todo : csv_file)
    (answers : list pystr) :
  NoDup names -> lit "stock_status" ∉ names ->
  Forall (fun r => (length r <= length names)%nat) todo ->
  Forall2 (fun row l => dict_to_list py (names ++ [lit "stock_status"]) row = Ok l)
    (zip_with (enriched_row names) todo answers)
    (zip_with
       (fun r a => r ++ replicate (length names - length r) [] ++ [checked_label a])
       todo answers).
Proof.
  intros Hnd Hss Hall. revert answers.
  induction Hall as [|r todo Hr _ IH]; intros [|a answers]; simpl; try constructor.
  - apply dict_to_list_row; assumption.
  - apply IH.
Qed.

(** The run on a well-formed catalogue, for contents that the access
    yields: for a header that has [name], has not [stock_status] and names
    no column twice, over rows no longer than the header,
    [initialize_stock_status] leaves the header followed by [stock_status]
    and, in order, every row that is not empty with its fields as they
    were read, empty fields for the names it lacked, and its label last. *)
Theorem enrichment_adds_column (py : python) (out : outside) (w : world)
    (names : list pystr) (rows : csv_file) (answers : list pystr) :
  catalog w = Some (names :: rows) ->
  lit "name" ∈ names -> lit "stock_status" ∉ names ->
  NoDup names ->
  Forall (fun r => (length r <= length names)%nat) rows ->
  length answers = length (reader_rows (names :: rows)) ->
  (forall i r a, reader_rows (names :: rows) !! i = Some r -> answers !! i = Some a ->
     chat_completion out (chat_calls w + i) (row_prompt py names r) = Ok a) ->
  exists w',
    initialize_stock_status py out w = (Ok tt, w')
    /\ catalog w' = Some (enriched_file names rows answers).
Proof.
  intros Hf Hname Hss Hnd Hlen Hn Hans.
  unfold initialize_stock_status. unfold bind at 1, open_read. rewrite Hf.
  cbn [reader_fieldnames head].
  rewrite (bool_decide_eq_false_2 (names = [])) by (intros ->; inversion Hname).
  rewrite (bool_decide_eq_false_2 (lit "stock_status" ∈ names)) by exact Hss.
  cbn [orb]. unfold bind at 1.
  destruct (enrich_rows_ok py out names (reader_rows (names :: rows)) answers [] w
              Hname Hn Hans) as (w2 & -> & Hcat2).
  unfold bind at 1, open_write, modify. unfold bind at 1. rewrite writeheader_run.
  cbn [catalog set_catalog]. change (default [] (Some [])) with (@nil (list pystr)).
  cbn [app].
  match goal with
  | |- exists w', writerows py ?fn ?rs ?w3 = _ /\ _ =>
    destruct (writerows_ok py fn rs
                (zip_with
                   (fun r a => r ++ replicate (length names - length r) [] ++ [checked_label a])
                   (reader_rows (names :: rows)) answers)
                w3 [fn] eq_refl) as (w' & Hrun & Hcat)
  end.
  - apply enriched_rows_written; try assumption.
    unfold reader_rows. cbn [tail]. apply Forall_forall.
    intros r [_ Hr]%list_elem_of_filter. revert r Hr. apply Forall_forall. exact Hlen.
  - exists w'. split; [exact Hrun|]. rewrite Hcat. reflexivity.
Qed.

(** The catalogue of the example: Widget and Gadget, labelled ["あり"] and
    ["残りわずか"] by the stub, under the columns [name, stock_status]. *)
Lemma enrichment_adds_column_witness :
  exists w',
    initialize_stock_status linux stub_outside (world_of (Some widget_file)) = (Ok tt, w')
    /\ catalog w'
       = Some [[lit "name"; lit "stock_status"];
               [lit "Widget"; lit "あり"];
               [lit "Gadget"; lit "残りわずか"]].
Proof.
  apply (enrichment_adds_column linux stub_outside (world_of (Some widget_file))
           [lit "name"] [[lit "Widget"]; [lit "Gadget"]] [lit "あり"; lit "残りわずか"]).
  - reflexivity.
  - left.
  - intros [H | H]%elem_of_cons; [discriminate H | inversion H].
  - apply NoDup_singleton.
  - repeat constructor.
  - reflexivity.
  - intros [|[|i]] r a Hr Ha; simpl in Ha; try discriminate Ha;
      injection Ha as <-; reflexivity.
Defined.

(** C3. The enricher does not keep every row and every value.  For a row
    with a field more than the header has names, with the classifier
    stubbed, the writer raises [ValueError] after the file was emptied and
    the header written: the file is left with the header only, and the row
    is lost.  Under a header that names a column twice the later value is
    written in both columns, and the earlier one is lost.  A carriage
    return stored in a field is read as a line feed and written back as
    one.  In the three cases the file is not the one with the rows and
    values as they were, [enriched_file].  And with the client as the
    library makes it, the rows of the example get no label at all:
    [TypeError] leaves the run at the first row, the file as it was. *)
Theorem enrichment_loses_data :
  (lit "name" ∈ [lit "name"] /\ (lit "stock_status" ∉ [lit "name"])
   /\ fst (initialize_stock_status linux stub_outside ragged_world) = Raise ValueError
   /\ catalog (initialize_stock_status linux stub_outside ragged_world).2
      = Some [[lit "name"; lit "stock_status"]]
   /\ catalog (initialize_stock_status linux stub_outside ragged_world).2
      <> Some (enriched_file [lit "name"] [[lit "Widget"; lit "100"]] [lit "あり"]))
  /\ (lit "name" ∈ [lit "name"; lit "name"]
      /\ (lit "stock_status" ∉ [lit "name"; lit "name"])
      /\ fst (initialize_stock_status linux stub_outside twice_named_world) = Ok tt
      /\ catalog (initialize_stock_status linux stub_outside twice_named_world).2
         = Some [[lit "name"; lit "name"; lit "stock_status"];
                 [lit "Gadget"; lit "Gadget"; lit "あり"]]
      /\ catalog (initialize_stock_status linux stub_outside twice_named_world).2
         <> Some (enriched_file [lit "name"; lit "name"]
                    [[lit "Widget"; lit "Gadget"]] [lit "あり"]))
  /\ (fst (initialize_stock_status linux stub_outside
             (world_of (Some (text_mode carriage_return_file)))) = Ok tt
      /\ catalog (initialize_stock_status linux stub_outside
                    (world_of (Some (text_mode carriage_return_file)))).2
         = Some [[lit "name"; lit "stock_status"];
                 [lit "Wid" ++ [0x0A] ++ lit "get"; lit "あり"]]
      /\ catalog (initialize_stock_status linux stub_outside
                    (world_of (Some (text_mode carriage_return_file)))).2
         <> Some (enriched_file [lit "name"] [[lit "Wid" ++ [0x0D] ++ lit "get"]]
                    [lit "あり"]))
  /\ (fst (initialize_stock_status linux (library_outside (lit "あり"))
             (world_of (Some widget_file))) = Raise TypeError
      /\ catalog (initialize_stock_status linux (library_outside (lit "あり"))
                    (world_of (Some widget_file))).2
         = Some widget_file).
Proof.
  split; [|split; [|split]].
  - split; [left|]. split.
    { intros [H | H]%elem_of_cons; [discriminate H | inversion H]. }
    split; [vm_compute; reflexivity|]. split; [vm_compute; reflexivity|].
    vm_compute. discriminate.
  - split; [left|]. split.
    { intros [H | [H | H]%elem_of_cons]%elem_of_cons;
        [discriminate H | discriminate H | inversion H]. }
    split; [vm_compute; reflexivity|]. split; [vm_compute; reflexivity|].
    vm_compute. discriminate.
  - split; [vm_compute; reflexivity|]. split; [vm_compute; reflexivity|].
    vm_compute. discriminate.
  - split; vm_compute; reflexivity.
Qed.

(** C4. When the call of the model for a row raises, the exception of the
    first such call leaves [initialize_stock_status], and the catalogue is
    as it was: nothing of it has been written. *)
Theorem classification_error_keeps_file (py : python) (out : outside) (w : world)
    (names : list pystr) (rows : csv_file) (k : nat) (r : list pystr) (e : exn) :
  catalog w = Some (names :: rows) ->
  lit "name" ∈ names -> lit "stock_status" ∉ names ->
  reader_rows (names :: rows) !! k = Some r ->
  chat_completion out (chat_calls w + k) (row_prompt py names r) = Raise e ->
  exists e' w',
    initialize_stock_status py out w = (Raise e', w')
    /\ catalog w' = catalog w
    /\ exists j r',
         (j <= k)%nat /\ reader_rows (names :: rows) !! j = Some r'
         /\ chat_completion out (chat_calls w + j) (row_prompt py names r') = Raise e'.
Proof.
  intros Hf Hname Hss Hk He.
  destruct (enrich_rows_raise py out names (reader_rows (names :: rows)) [] w k r e
              Hname Hk He)
    as (e' & w' & j & r' & Hrun & Hj & Hr' & He' & Hcat & _).
  exists e', w'. split; [|split; [exact Hcat | eauto]].
  unfold initialize_stock_status. unfold bind at 1, open_read. rewrite Hf.
  cbn [reader_fieldnames head].
  rewrite (bool_decide_eq_false_2 (names = [])) by (intros ->; inversion Hname).
  rewrite (bool_decide_eq_false_2 (lit "stock_status" ∈ names)) by exact Hss.
  cbn [orb]. unfold bind at 1. rewrite Hrun. reflexivity.
Qed.

Lemma classification_error_keeps_file_witness :
  exists e' w',
    initialize_stock_status linux failing_outside (world_of (Some widget_file)) = (Raise e', w')
    /\ catalog w' = Some widget_file
    /\ exists j r',
         (j <= 1)%nat /\ reader_rows widget_file !! j = Some r'
         /\ chat_completion failing_outside (0 + j) (row_prompt linux [lit "name"] r')
            = Raise e'.
Proof.
  apply (classification_error_keeps_file linux failing_outside (world_of (Some widget_file))
           [lit "name"] [[lit "Widget"]; [lit "Gadget"]] 1 [lit "Gadget"] (ServiceError 429)).
  - reflexivity.
  - left.
  - intros [H | H]%elem_of_cons; [discriminate H | inversion H].
  - reflexivity.
  - reflexivity.
Defined.

(** * More properties *)

(** ** Runs of the monad *)

Lemma bind_Ok {A B} (m : M A) (k : A -> M B) (w w2 : world) (b : B) :
  bind m k w = (Ok b, w2) ->
  exists a w1, m w = (Ok a, w1) /\ k a w1 = (Ok b, w2).
Proof.
  unfold bind. destruct (m w) as [[a | e] w1]; [eauto | intros [=]].
Qed.

Lemma bind_run {A B} (m : M A) (k : A -> M B) (w w2 : world) (r : result B) :
  bind m k w = (r, w2) ->
  (exists e, m w = (Raise e, w2) /\ r = Raise e)
  \/ (exists a w1, m w = (Ok a, w1) /\ k a w1 = (r, w2)).
Proof.
  unfold bind. destruct (m w) as [[a | e] w1]; [eauto | intros [= <- <-]; eauto].
Qed.

(** ** The session state *)

Lemma initialize_session_state_run (w : world) :
  initialize_session_state w
  = (Ok tt,
     if bool_decide (is_Some (session_state w !! "messages")) then w
     else set_session_state (fun s => <["messages" := VList []]> s) w).
Proof.
  unfold initialize_session_state, bind, in_session, gets.
  case_bool_decide; reflexivity.
Qed.

Lemma initialize_session_id_run (out : outside) (w : world) :
  initialize_session_id out w
  = (Ok tt,
     if bool_decide (is_Some (session_state w !! "session_id")) then w
     else set_session_state
            (fun s => <["session_id" := VStr (uuid4_hex out (uuid4_calls w))]> s)
            (log_event EvUuid4 w)).
Proof.
  unfold initialize_session_id, bind, in_session, gets.
  case_bool_decide; reflexivity.
Qed.

(** X1. [initialize_session_state] always returns; a chat history that is
    there is left as it is, with the whole world; one that is missing
    becomes the empty list, and no other key of the session changes. *)
Theorem chat_history_kept (w : world) :
  fst (initialize_session_state w) = Ok tt
  /\ (is_Some (session_state w !! "messages") -> initialize_session_state w = (Ok tt, w))
  /\ (session_state w !! "messages" = None ->
      session_state (initialize_session_state w).2 !! "messages" = Some (VList []))
  /\ (forall name, name ≠ "messages" ->
        session_state (initialize_session_state w).2 !! name = session_state w !! name)
  /\ trace (initialize_session_state w).2 = trace w.
Proof.
  rewrite initialize_session_state_run. cbn [fst snd].
  split; [reflexivity|]. split; [|split; [|split]].
  - intros H. rewrite bool_decide_eq_true_2 by exact H. reflexivity.
  - intros H. rewrite bool_decide_eq_false_2 by (rewrite H; intros [? [=]]).
    simpl. apply lookup_insert_eq.
  - intros name Hne. case_bool_decide; [reflexivity|].
    simpl. apply lookup_insert_ne. congruence.
  - case_bool_decide; reflexivity.
Qed.

Lemma chat_history_kept_witness :
  initialize_session_state (set_session_state (fun _ => chat_session) (world_of None))
  = (Ok tt, set_session_state (fun _ => chat_session) (world_of None)).
Proof.
  apply (proj1 (proj2 (chat_history_kept _))).
  eexists. reflexivity.
Defined.

(** ** What each step leaves alone *)

Section Frames.
Context (ct : constants) (py : python) (out : outside).

Lemma initialize_logger_frame (w : world) (r : result unit) (w' : world) :
  initialize_logger ct py out w = (r, w') ->
  session_state w' = session_state w /\ catalog w' = catalog w
  /\ logger_parents w' = logger_parents w.
Proof.
  unfold initialize_logger, bind, external, gets, getattr_session, modify, ret.
  destruct (raises out (trace w) (EvMakedirs (LOG_DIR_PATH ct))); [intros [= <- <-]; auto|].
  cbn [app_logger logger_parents log_event].
  destruct (hasHandlers (app_logger w) (logger_parents w)); [intros [= <- <-]; auto|].
  cbn [trace].
  destruct (raises out _ (EvTimedRotatingFileHandler _)); [intros [= <- <-]; auto|].
  cbn [session_state log_event].
  destruct (session_state w !! "session_id"); intros [= <- <-]; auto.
Qed.

(** One turn of the loop [for row in reader]. *)
Lemma enrich_rows_step (names r : list pystr) (todo : csv_file) (acc : list row_dict)
    (w : world) :
  enrich_rows py out names (r :: todo) acc w
  = match fields (reader_next names r) !! lit "name" with
    | None => (Raise (KeyError (lit "name")), w)
    | Some _ =>
      match chat_completion out (chat_calls w) (row_prompt py names r) with
      | Ok content =>
        enrich_rows py out names todo (acc ++ [enriched_row names r content])
          (log_event (row_event py names r) w)
      | Raise e => (Raise e, log_event (row_event py names r) w)
      end
    end.
Proof.
  cbn [enrich_rows]. unfold bind at 1, getitem, row_prompt, row_event, row_prompt.
  destruct (fields (reader_next names r) !! lit "name") as [v|]; [|reflexivity].
  unfold ret at 1. cbn [default]. unfold bind at 1.
  rewrite generate_stock_status_run.
  destruct (chat_completion out _ _) as [content | e]; reflexivity.
Qed.

(** The loop only asks the model: one call for each row it gets through,
    in order. *)
Lemma enrich_rows_frame (names : list pystr) (todo : csv_file) (acc : list row_dict)
    (w : world) (r : result (list row_dict)) (w' : world) :
  enrich_rows py out names todo acc w = (r, w') ->
  session_state w' = session_state w /\ catalog w' = catalog w
  /\ app_logger w' = app_logger w /\ logger_parents w' = logger_parents w
  /\ exists n, trace w' = trace w ++ (row_event py names <$> take n todo)
              /\ (forall rows, r = Ok rows -> n = length todo).
Proof.
  revert acc w. induction todo as [|r0 todo IH]; intros acc w.
  - intros [= <- <-]. repeat split; try reflexivity.
    exists 0%nat. rewrite app_nil_r. auto.
  - rewrite enrich_rows_step.
    destruct (fields (reader_next names r0) !! lit "name") as [v|].
    + destruct (chat_completion out _ _) as [content | e].
      * intros Hrun. apply IH in Hrun as (H1 & H2 & H3 & H4 & n & Hn & Hlen).
        repeat split; try assumption.
        exists (S n). split.
        -- rewrite Hn. cbn [trace log_event take fmap list_fmap].
           rewrite <- app_assoc. reflexivity.
        -- intros rows Hr. simpl. f_equal. eapply Hlen, Hr.
      * intros [= <- <-]. repeat split; try reflexivity.
        exists 1%nat. split; [reflexivity | intros ? [=]].
    + intros [= <- <-]. repeat split; try reflexivity.
      exists 0%nat. split; [rewrite app_nil_r; reflexivity | intros ? [=]].
Qed.

Lemma writerows_frame (names : list pystr) (rows : list row_dict) (w : world)
    (r : result unit) (w' : world) :
  writerows py names rows w = (r, w') ->
  session_state w' = session_state w /\ app_logger w' = app_logger w
  /\ logger_parents w' = logger_parents w /\ trace w' = trace w.
Proof.
  revert w. induction rows as [|row rows IH]; intros w; [intros [= <- <-]; auto|].
  cbn [writerows]. unfold bind, dict_writerow.
  destruct (dict_to_list py names row) as [l | e]; [|intros [= <- <-]; auto].
  unfold writerow, modify. intros Hrun. apply IH in Hrun. exact Hrun.
Qed.

Lemma initialize_stock_status_frame (w : world) (r : result unit) (w' : world) :
  initialize_stock_status py out w = (r, w') ->
  session_state w' = session_state w /\ app_logger w' = app_logger w
  /\ logger_parents w' = logger_parents w.
Proof.
  unfold initialize_stock_status. unfold bind at 1, open_read.
  destruct (catalog w) as [f|]; [|intros [= <- <-]; auto].
  destruct (reader_fieldnames f) as [names|]; [|intros [= <- <-]; auto].
  destruct (bool_decide (names = []) || bool_decide (lit "stock_status" ∈ names));
    [intros [= <- <-]; auto|].
  unfold bind at 1.
  destruct (enrich_rows py out names (reader_rows f) [] w) as [[rows | e] w2] eqn:Hloop;
    apply enrich_rows_frame in Hloop as (E1 & _ & E3 & E4 & _);
    [|intros [= <- <-]; auto].
  unfold bind at 1, open_write, modify. unfold bind at 1. rewrite writeheader_run.
  intros Hrun. apply writerows_frame in Hrun as (W1 & W2 & W3 & _).
  rewrite W1, W2, W3. simpl. auto.
Qed.

(** What [initialize_retriever] does when the session has no retriever. *)
Lemma initialize_retriever_run (w : world) :
  session_state w !! "retriever" = None ->
  (exists e w', initialize_retriever ct py out w = (Raise e, w')
                /\ session_state w' = session_state w /\ catalog w' = catalog w
                /\ app_logger w' = app_logger w /\ logger_parents w' = logger_parents w)
  \/ (exists f, catalog w = Some f
      /\ initialize_retriever ct py out w
         = (Ok tt,
            World (<["retriever" := built_retriever ct py out f]> (session_state w))
                  (catalog w) (app_logger w) (logger_parents w)
                  (trace w ++ build_events ct py out f))).
Proof.
  intros Habs. unfold initialize_retriever, bind, in_session, gets.
  rewrite bool_decide_eq_false_2 by (rewrite Habs; intros [? [=]]).
  unfold loader_load, bind, external, ret, setattr_session, modify.
  destruct (raises out (trace w) (EvCSVLoader (RAG_SOURCE_PATH ct)));
    [left; eexists _, _; split; [reflexivity | simpl; auto]|].
  cbn [catalog log_event]. destruct (catalog w) as [f|] eqn:Hf;
    [|left; eexists _, _; split; [reflexivity | simpl; auto]].
  repeat
    match goal with
    | |- context [raises out ?t ?e] =>
      destruct (raises out t e);
        [left; eexists _, _; split; [reflexivity | simpl; auto]|]; cbn iota beta
    end.
  right. exists f. split; [reflexivity|].
  unfold set_session_state, log_event, build_events, built_retriever, retriever_docs. simpl.
  rewrite <- !app_assoc, ?Hf. reflexivity.
Qed.

Lemma initialize_retriever_frame (w : world) (r : result unit) (w' : world) :
  initialize_retriever ct py out w = (r, w') ->
  catalog w' = catalog w /\ app_logger w' = app_logger w
  /\ logger_parents w' = logger_parents w
  /\ forall name, name ≠ "retriever" -> session_state w' !! name = session_state w !! name.
Proof.
  destruct (session_state w !! "retriever") as [v|] eqn:Hr.
  - rewrite initialize_retriever_present by eauto. intros [= <- <-]. auto.
  - destruct (initialize_retriever_run w Hr)
      as [(e & w1 & -> & H1 & H2 & H3 & H4) | (f & Hf & ->)]; intros [= <- <-].
    + rewrite H1. auto.
    + cbn [session_state catalog app_logger logger_parents].
      repeat split; try reflexivity.
      intros name Hne. apply lookup_insert_ne. congruence.
Qed.
End Frames.

(** ** More on the retriever *)

(** X2. When [initialize_retriever] raises, the session state is as it
    was: no retriever is stored, so the next call builds again; the
    catalogue is as it was too. *)
Theorem retriever_failure_keeps_session (ct : constants) (py : python) (out : outside)
    (w : world) (e : exn) (w' : world) :
  initialize_retriever ct py out w = (Raise e, w') ->
  session_state w' = session_state w /\ catalog w' = catalog w.
Proof.
  intros Hrun. destruct (session_state w !! "retriever") as [v|] eqn:Hr.
  - rewrite initialize_retriever_present in Hrun by eauto. discriminate Hrun.
  - destruct (initialize_retriever_run ct py out w Hr)
      as [(e1 & w1 & Hrun1 & H1 & H2 & _) | (f & _ & Hrun1)];
      rewrite Hrun1 in Hrun; [|discriminate Hrun].
    injection Hrun as <- <-. auto.
Qed.

Lemma retriever_failure_keeps_session_witness :
  session_state
    (initialize_retriever sample_ct linux no_store_outside (world_of (Some widget_file))).2
  = ∅
  /\ catalog
       (initialize_retriever sample_ct linux no_store_outside (world_of (Some widget_file))).2
     = Some widget_file.
Proof.
  apply (retriever_failure_keeps_session sample_ct linux no_store_outside
           (world_of (Some widget_file)) (ServiceError 503)).
  reflexivity.
Defined.

(** X3. A call that returns in a session without a retriever stores the
    ensemble of a lexical retriever and a vector-store retriever, both
    with [TOP_K] and over the same sanitised documents of the catalogue:
    the texts of the lexical one are the page contents of the documents of
    the vector store.  Its calls are, in order, the loader, the embeddings,
    the vector store, the lexical retriever and the ensemble. *)
Theorem retriever_stored (ct : constants) (py : python) (out : outside) (w w' : world) :
  session_state w !! "retriever" = None ->
  initialize_retriever ct py out w = (Ok tt, w') ->
  exists f docs,
    catalog w = Some f
    /\ docs = adjust_doc py <$> csv_loader_load out f
    /\ session_state w'
       = <["retriever" :=
             VEnsembleRetriever
               [VBM25Retriever (page_content_of <$> docs) (TOP_K ct);
                VVectorStoreRetriever (VChroma docs VOpenAIEmbeddings) (TOP_K ct)]
               (RETRIEVER_WEIGHTS ct)]> (session_state w)
    /\ trace w'
       = trace w ++ [EvCSVLoader (RAG_SOURCE_PATH ct); EvOpenAIEmbeddings;
                     EvChromaFromDocuments docs;
                     EvBM25FromTexts (page_content_of <$> docs); EvEnsembleRetriever].
Proof.
  intros Hr Hrun.
  destruct (initialize_retriever_run ct py out w Hr)
    as [(e1 & w1 & Hrun1 & _) | (f & Hf & Hrun1)];
    rewrite Hrun1 in Hrun; [discriminate Hrun|].
  injection Hrun as <-. exists f, (retriever_docs py out f). auto.
Qed.

Lemma retriever_stored_witness :
  exists f docs,
    catalog (world_of (Some widget_file)) = Some f
    /\ docs = adjust_doc linux <$> csv_loader_load loading_outside f
    /\ session_state
         (initialize_retriever sample_ct linux loading_outside (world_of (Some widget_file))).2
       = <["retriever" :=
             VEnsembleRetriever
               [VBM25Retriever (page_content_of <$> docs) (TOP_K sample_ct);
                VVectorStoreRetriever (VChroma docs VOpenAIEmbeddings) (TOP_K sample_ct)]
               (RETRIEVER_WEIGHTS sample_ct)]> ∅
    /\ trace
         (initialize_retriever sample_ct linux loading_outside (world_of (Some widget_file))).2
       = [] ++ [EvCSVLoader (RAG_SOURCE_PATH sample_ct); EvOpenAIEmbeddings;
                EvChromaFromDocuments docs;
                EvBM25FromTexts (page_content_of <$> docs); EvEnsembleRetriever].
Proof.
  apply (retriever_stored sample_ct linux loading_outside (world_of (Some widget_file))
           (initialize_retriever sample_ct linux loading_outside
              (world_of (Some widget_file))).2);
    reflexivity.
Defined.

Lemma adjust_string_off_windows_any (py : python) (v : value) :
  on_windows py = false -> adjust_string py v = v.
Proof. intros H. destruct v; simpl; try reflexivity. rewrite H. reflexivity. Qed.

(** X4. Off Windows the documents reach the vector store and the lexical
    retriever as the loader made them: text and metadata are not changed. *)
Theorem documents_untouched_off_windows (py : python) (out : outside) (f : csv_file) :
  on_windows py = false ->
  retriever_docs py out f = csv_loader_load out f.
Proof.
  intros Hwin. unfold retriever_docs.
  rewrite <- (list_fmap_id (csv_loader_load out f)) at 2.
  apply list_fmap_ext. intros i doc _. destruct doc; try reflexivity. simpl.
  rewrite adjust_string_off_windows_any by exact Hwin. f_equal.
  apply map_eq. intros key. rewrite lookup_fmap.
  destruct (metadata !! key) as [v|]; simpl; [|reflexivity].
  rewrite adjust_string_off_windows_any by exact Hwin. reflexivity.
Qed.

Lemma documents_untouched_off_windows_witness :
  retriever_docs linux loading_outside widget_file
  = csv_loader_load loading_outside widget_file.
Proof. apply documents_untouched_off_windows. reflexivity. Defined.

(** ** More on the logger *)

(** X5. When [hasHandlers] holds, be it for a handler of a propagating
    ancestor only, [initialize_logger] makes the directory and returns or
    raises there: no handler is attached, the level is not set. *)
Theorem logger_blocked_by_ancestor (ct : constants) (py : python) (out : outside)
    (w : world) (r : result unit) (w' : world) :
  hasHandlers (app_logger w) (logger_parents w) = true ->
  initialize_logger ct py out w = (r, w') ->
  w' = log_event (EvMakedirs (LOG_DIR_PATH ct)) w
  /\ (raises out (trace w) (EvMakedirs (LOG_DIR_PATH ct)) = None -> r = Ok tt).
Proof.
  intros Hhas. unfold initialize_logger, bind, external, gets.
  destruct (raises out (trace w) (EvMakedirs (LOG_DIR_PATH ct))) as [e|].
  - intros [= <- <-]. split; [reflexivity | intros [=]].
  - cbn [app_logger logger_parents log_event]. rewrite Hhas.
    intros [= <- <-]. auto.
Qed.

Lemma logger_blocked_by_ancestor_witness :
  (initialize_logger sample_ct linux stub_outside root_configured_world).2
  = log_event (EvMakedirs (LOG_DIR_PATH sample_ct)) root_configured_world
  /\ (raises stub_outside (trace root_configured_world) (EvMakedirs (LOG_DIR_PATH sample_ct))
      = None ->
      fst (initialize_logger sample_ct linux stub_outside root_configured_world) = Ok tt).
Proof.
  apply (logger_blocked_by_ancestor sample_ct linux stub_outside root_configured_world);
    reflexivity.
Defined.

(** X6. When no logger up the chain has a handler, the directory can be
    made, the file handler can be opened and the session has an identifier,
    [initialize_logger] returns with exactly one handler on the logger, a
    daily rotating one on [LOG_DIR_PATH/LOG_FILE] in UTF-8 whose format
    holds that identifier, and with the level [INFO]; whether the logger
    propagates is not changed. *)
Theorem logger_attaches (ct : constants) (py : python) (out : outside)
    (w : world) (session_id : value) :
  hasHandlers (app_logger w) (logger_parents w) = false ->
  raises out (trace w) (EvMakedirs (LOG_DIR_PATH ct)) = None ->
  raises out (trace w ++ [EvMakedirs (LOG_DIR_PATH ct)])
    (EvTimedRotatingFileHandler (os_path_join py (LOG_DIR_PATH ct) (LOG_FILE ct))) = None ->
  session_state w !! "session_id" = Some session_id ->
  exists w',
    initialize_logger ct py out w = (Ok tt, w')
    /\ app_logger w'
       = Logger [Handler (os_path_join py (LOG_DIR_PATH ct) (LOG_FILE ct)) (lit "D")
                   (lit "utf8") (Some (log_format py session_id))]
                INFO (propagate (app_logger w))
    /\ trace w'
       = trace w ++ [EvMakedirs (LOG_DIR_PATH ct);
                     EvTimedRotatingFileHandler
                       (os_path_join py (LOG_DIR_PATH ct) (LOG_FILE ct))].
Proof.
  intros Hhas Hdir Hfile Hsid.
  assert (Hnil : handlers (app_logger w) = []).
  { destruct (handlers (app_logger w)) eqn:Hl; [reflexivity|].
    rewrite hasHandlers_own in Hhas by (rewrite Hl; discriminate). discriminate Hhas. }
  unfold initialize_logger, bind, external, gets, getattr_session, modify, ret.
  rewrite Hdir. cbn [app_logger logger_parents log_event]. rewrite Hhas.
  cbn [trace log_event]. rewrite Hfile. cbn [session_state log_event]. rewrite Hsid.
  eexists. split; [reflexivity|]. simpl. rewrite Hnil, <- app_assoc. auto.
Qed.

Lemma logger_attaches_witness :
  exists w',
    initialize_logger sample_ct linux stub_outside
      (set_session_state (fun _ => session_of (lit "9f1c2b7a")) (world_of None)) = (Ok tt, w')
    /\ app_logger w'
       = Logger [Handler (lit "./logs/application.log") (lit "D") (lit "utf8")
                   (Some (log_format linux (VStr (lit "9f1c2b7a"))))]
                20 true
    /\ trace w'
       = [] ++ [EvMakedirs (lit "./logs");
                EvTimedRotatingFileHandler (lit "./logs/application.log")].
Proof.
  apply (logger_attaches sample_ct linux stub_outside
           (set_session_state (fun _ => session_of (lit "9f1c2b7a")) (world_of None))
           (VStr (lit "9f1c2b7a"))); reflexivity.
Defined.

(** X7. Without [session_id] in the session state, on a chain without
    handlers, [initialize_logger] raises [AttributeError] after it has
    opened the file handler, and attaches nothing. *)
Theorem logger_needs_session_id (ct : constants) (py : python) (out : outside) (w : world) :
  hasHandlers (app_logger w) (logger_parents w) = false ->
  raises out (trace w) (EvMakedirs (LOG_DIR_PATH ct)) = None ->
  raises out (trace w ++ [EvMakedirs (LOG_DIR_PATH ct)])
    (EvTimedRotatingFileHandler (os_path_join py (LOG_DIR_PATH ct) (LOG_FILE ct))) = None ->
  session_state w !! "session_id" = None ->
  exists w',
    initialize_logger ct py out w = (Raise (AttributeError "session_id"), w')
    /\ app_logger w' = app_logger w
    /\ trace w'
       = trace w ++ [EvMakedirs (LOG_DIR_PATH ct);
                     EvTimedRotatingFileHandler
                       (os_path_join py (LOG_DIR_PATH ct) (LOG_FILE ct))].
Proof.
  intros Hhas Hdir Hfile Hsid.
  unfold initialize_logger, bind, external, gets, getattr_session, modify, ret.
  rewrite Hdir. cbn [app_logger logger_parents log_event]. rewrite Hhas.
  cbn [trace log_event]. rewrite Hfile. cbn [session_state log_event]. rewrite Hsid.
  eexists. split; [reflexivity|]. simpl. rewrite <- app_assoc. auto.
Qed.

Lemma logger_needs_session_id_witness :
  exists w',
    initialize_logger sample_ct linux stub_outside (world_of None)
    = (Raise (AttributeError "session_id"), w')
    /\ app_logger w' = fresh_logger
    /\ trace w'
       = [] ++ [EvMakedirs (lit "./logs");
                EvTimedRotatingFileHandler (lit "./logs/application.log")].
Proof.
  apply (logger_needs_session_id sample_ct linux stub_outside (world_of None)); reflexivity.
Defined.

(** ** initialize *)

Section Initialize.
Context (ct : constants) (py : python) (out : outside).

(** The steps of a run of [initialize], one after the other. *)
Lemma initialize_stages (w : world) (r : result unit) (w' : world) :
  initialize ct py out w = (r, w') ->
  exists r3 w3,
    initialize_logger ct py out
      (initialize_session_id out (initialize_session_state w).2).2 = (r3, w3)
    /\ ((exists e, r3 = Raise e /\ r = Raise e /\ w' = w3)
        \/ (r3 = Ok tt
            /\ exists r4 w4,
                 initialize_stock_status py out w3 = (r4, w4)
                 /\ ((exists e, r4 = Raise e /\ r = Raise e /\ w' = w4)
                     \/ (r4 = Ok tt /\ initialize_retriever ct py out w4 = (r, w'))))).
Proof.
  intros Hrun. unfold initialize in Hrun.
  apply bind_run in Hrun as [(e & H1 & _) | ([] & w1 & H1 & Hrun)];
    [rewrite initialize_session_state_run in H1; discriminate H1|].
  apply bind_run in Hrun as [(e & H2 & _) | ([] & w2 & H2 & Hrun)];
    [rewrite initialize_session_id_run in H2; discriminate H2|].
  rewrite H1. cbn [snd]. rewrite H2. cbn [snd].
  apply bind_run in Hrun as [(e & H3 & ->) | ([] & w3 & H3 & Hrun)].
  { eexists _, _. split; [exact H3|]. left. eauto. }
  eexists _, _. split; [exact H3|]. right. split; [reflexivity|].
  apply bind_run in Hrun as [(e & H4 & ->) | ([] & w4 & H4 & Hrun)].
  { eexists _, _. split; [exact H4|]. left. eauto. }
  eexists _, _. split; [exact H4|]. right. auto.
Qed.

(** The session after the two steps that fill it: what was there is
    there, and [messages] and [session_id] are there. *)
Lemma session_steps (w : world) :
  let w2 := (initialize_session_id out (initialize_session_state w).2).2 in
  (forall name v, session_state w !! name = Some v -> session_state w2 !! name = Some v)
  /\ is_Some (session_state w2 !! "messages")
  /\ is_Some (session_state w2 !! "session_id")
  /\ (session_state w !! "retriever" = None -> session_state w2 !! "retriever" = None)
  /\ catalog w2 = catalog w /\ app_logger w2 = app_logger w
  /\ logger_parents w2 = logger_parents w.
Proof.
  rewrite initialize_session_state_run. cbn [snd].
  rewrite initialize_session_id_run. cbn [snd].
  destruct (bool_decide (is_Some (session_state w !! "messages"))) eqn:Hm.
  - apply bool_decide_eq_true in Hm.
    destruct (bool_decide (is_Some (session_state w !! "session_id"))) eqn:Hs.
    + apply bool_decide_eq_true in Hs. repeat split; auto.
    + apply bool_decide_eq_false in Hs. cbn. repeat split; auto.
      * intros name v Hv. rewrite lookup_insert_ne; [exact Hv|].
        intros <-. apply Hs. eauto.
      * rewrite lookup_insert_ne by discriminate. exact Hm.
      * rewrite lookup_insert_eq. eauto.
      * intros Hr. rewrite lookup_insert_ne by discriminate. exact Hr.
  - apply bool_decide_eq_false in Hm.
    cbn [session_state set_session_state].
    destruct (bool_decide (is_Some (<["messages":=VList []]> (session_state w)
                                      !! "session_id"))) eqn:Hs.
    + apply bool_decide_eq_true in Hs. cbn. repeat split; auto.
      * intros name v Hv. rewrite lookup_insert_ne; [exact Hv|].
        intros <-. apply Hm. eauto.
      * rewrite lookup_insert_eq. eauto.
      * intros Hr. rewrite lookup_insert_ne by discriminate. exact Hr.
    + apply bool_decide_eq_false in Hs. cbn. repeat split; auto.
      * intros name v Hv. rewrite lookup_insert_ne.
        -- rewrite lookup_insert_ne; [exact Hv|]. intros <-. apply Hm. eauto.
        -- intros <-. apply Hs. rewrite lookup_insert_ne by discriminate. eauto.
      * rewrite lookup_insert_ne by discriminate. rewrite lookup_insert_eq. eauto.
      * rewrite lookup_insert_eq. eauto.
      * intros Hr. rewrite !lookup_insert_ne by discriminate. exact Hr.
Qed.

Lemma initialize_retriever_keeps (w : world) (r : result unit) (w' : world) :
  initialize_retriever ct py out w = (r, w') ->
  forall name v, session_state w !! name = Some v -> session_state w' !! name = Some v.
Proof.
  intros Hrun name v Hv. destruct (decide (name = "retriever")) as [-> | Hne].
  - rewrite initialize_retriever_present in Hrun by eauto.
    injection Hrun as <- <-. exact Hv.
  - apply initialize_retriever_frame in Hrun as (_ & _ & _ & Hs).
    rewrite Hs by exact Hne. exact Hv.
Qed.

Lemma initialize_keeps (w : world) (r : result unit) (w' : world) :
  initialize ct py out w = (r, w') ->
  forall name v, session_state w !! name = Some v -> session_state w' !! name = Some v.
Proof.
  intros Hrun name v Hv.
  destruct (session_steps w) as (Hkeep & _).
  apply Hkeep in Hv.
  apply initialize_stages in Hrun as (r3 & w3 & H3 & Hrest).
  apply initialize_logger_frame in H3 as (S3 & _).
  destruct Hrest as [(e & _ & _ & ->) | (_ & r4 & w4 & H4 & Hrest)];
    [rewrite S3; exact Hv|].
  apply initialize_stock_status_frame in H4 as (S4 & _).
  destruct Hrest as [(e & _ & _ & ->) | (_ & H5)]; [rewrite S4, S3; exact Hv|].
  apply (initialize_retriever_keeps w4 r w' H5). rewrite S4, S3. exact Hv.
Qed.

Lemma initialize_logger_ok (w w' : world) :
  initialize_logger ct py out w = (Ok tt, w') ->
  hasHandlers (app_logger w') (logger_parents w') = true.
Proof.
  unfold initialize_logger, bind, external, gets, getattr_session, modify, ret.
  destruct (raises out (trace w) (EvMakedirs (LOG_DIR_PATH ct))); [intros [=]|].
  cbn [app_logger logger_parents log_event].
  destruct (hasHandlers (app_logger w) (logger_parents w)) eqn:Hhas;
    [intros [= <-]; exact Hhas|].
  cbn [trace log_event].
  destruct (raises out _ (EvTimedRotatingFileHandler _)); [intros [=]|].
  cbn [session_state log_event].
  destruct (session_state w !! "session_id"); intros [= <-].
  apply hasHandlers_own. simpl. intros H. apply app_eq_nil in H as [_ [=]].
Qed.

Lemma initialize_stock_status_ok (w w' : world) :
  initialize_stock_status py out w = (Ok tt, w') ->
  exists f, catalog w' = Some f /\ needs_no_column f = true.
Proof.
  intros Hrun.
  destruct (initialize_stock_status_returns py out w w' Hrun)
    as [-> | (header & rest & Hcat & Hin)].
  - revert Hrun. unfold initialize_stock_status. unfold bind at 1, open_read.
    destruct (catalog w) as [f|] eqn:Hf; [|intros [=]].
    destruct f as [|names rest]; [eauto|]. cbn [reader_fieldnames head].
    destruct (bool_decide (names = []) || bool_decide (lit "stock_status" ∈ names)) eqn:Hg;
      [eauto|].
    unfold bind at 1.
    destruct (enrich_rows py out names (reader_rows (names :: rest)) [] w)
      as [[rows | e] w2] eqn:Hloop; [|intros [=]].
    unfold bind at 1, open_write, modify. unfold bind at 1. rewrite writeheader_run.
    cbn [catalog set_catalog]. change (default [] (Some [])) with (@nil (list pystr)).
    cbn [app]. intros Hwrite.
    match type of Hwrite with
    | writerows py ?fn rows ?w3 = _ =>
      destruct (writerows_appends py fn rows w3 [fn] eq_refl) as [more Hmore]
    end.
    rewrite Hwrite in Hmore. cbn [snd] in Hmore. rewrite Hmore in Hf.
    injection Hf as Hn _. exfalso.
    apply orb_false_iff in Hg as [_ Hg]. apply bool_decide_eq_false in Hg.
    apply Hg. rewrite <- Hn. apply elem_of_app. right. left.
  - exists (header :: rest). split; [exact Hcat|]. simpl.
    rewrite (bool_decide_eq_true_2 _ Hin). apply orb_true_r.
Qed.

Lemma initialize_stock_status_skip_any (w : world) (f : csv_file) :
  catalog w = Some f -> needs_no_column f = true ->
  initialize_stock_status py out w = (Ok tt, w).
Proof.
  intros Hf Hskip. unfold initialize_stock_status, bind, open_read. rewrite Hf.
  destruct f as [|names rest]; [reflexivity|].
  cbn [reader_fieldnames head]. simpl in Hskip. rewrite Hskip. reflexivity.
Qed.

(** What a run of [initialize] that returns has established. *)
Lemma initialize_returns (w w' : world) :
  initialize ct py out w = (Ok tt, w') ->
  is_Some (session_state w' !! "messages")
  /\ is_Some (session_state w' !! "session_id")
  /\ hasHandlers (app_logger w') (logger_parents w') = true
  /\ exists f,
       catalog w' = Some f /\ needs_no_column f = true
       /\ (session_state w !! "retriever" = None ->
           session_state w' !! "retriever" = Some (built_retriever ct py out f))
       /\ is_Some (session_state w' !! "retriever").
Proof.
  intros Hrun.
  destruct (session_steps w) as (_ & Hm & Hs & Hr & _).
  apply initialize_stages in Hrun as (r3 & w3 & H3 & Hrest).
  destruct Hrest as [(e & _ & [=] & _) | (-> & r4 & w4 & H4 & Hrest)].
  destruct Hrest as [(e & _ & [=] & _) | (-> & H5)].
  pose proof (initialize_logger_ok _ _ H3) as Hhas.
  apply initialize_logger_frame in H3 as (S3 & _ & _).
  pose proof (initialize_stock_status_ok _ _ H4) as (f & Hf & Hskip).
  apply initialize_stock_status_frame in H4 as (S4 & L4 & P4).
  destruct Hm as [vm Hm]. destruct Hs as [vs Hs].
  rewrite <- S3, <- S4 in Hm, Hs, Hr.
  pose proof (initialize_retriever_keeps w4 _ w' H5) as Hkeep.
  split; [rewrite (Hkeep _ _ Hm); eauto|].
  split; [rewrite (Hkeep _ _ Hs); eauto|].
  pose proof (initialize_retriever_frame ct py out w4 _ w' H5) as (C5 & L5 & P5 & _).
  split; [rewrite L5, P5, L4, P4; exact Hhas|].
  exists f. split; [rewrite C5; exact Hf|]. split; [exact Hskip|].
  destruct (session_state w4 !! "retriever") as [v|] eqn:Hr4.
  - split; [intros Habs; apply Hr in Habs; discriminate Habs|].
    rewrite (Hkeep _ _ Hr4). eauto.
  - destruct (initialize_retriever_run ct py out w4 Hr4)
      as [(e1 & w1 & Hrun1 & _) | (f' & Hf' & Hrun1)];
      rewrite Hrun1 in H5; [discriminate H5|].
    injection H5 as <-. cbn [session_state]. rewrite lookup_insert_eq.
    rewrite Hf in Hf'. injection Hf' as <-. eauto.
Qed.
End Initialize.

Section InitializeRuns.
Context (ct : constants) (py : python) (out : outside).

Lemma bind_ok_eq {A B} (m : M A) (k : A -> M B) (w w1 : world) (a : A) :
  m w = (Ok a, w1) -> bind m k w = k a w1.
Proof. intros H. unfold bind. rewrite H. reflexivity. Qed.

Lemma initialize_logger_has (w : world) :
  hasHandlers (app_logger w) (logger_parents w) = true ->
  raises out (trace w) (EvMakedirs (LOG_DIR_PATH ct)) = None ->
  initialize_logger ct py out w = (Ok tt, log_event (EvMakedirs (LOG_DIR_PATH ct)) w).
Proof.
  intros Hhas Hdir. unfold initialize_logger, bind, external, gets. rewrite Hdir.
  cbn [app_logger logger_parents log_event]. rewrite Hhas. reflexivity.
Qed.

Lemma initialize_logger_attach_run (w : world) (session_id : value) :
  hasHandlers (app_logger w) (logger_parents w) = false ->
  raises out (trace w) (EvMakedirs (LOG_DIR_PATH ct)) = None ->
  raises out (trace w ++ [EvMakedirs (LOG_DIR_PATH ct)])
    (EvTimedRotatingFileHandler (os_path_join py (LOG_DIR_PATH ct) (LOG_FILE ct))) = None ->
  session_state w !! "session_id" = Some session_id ->
  exists w',
    initialize_logger ct py out w = (Ok tt, w')
    /\ app_logger w' = Logger [log_handler_of ct py session_id] INFO (propagate (app_logger w)).
Proof.
  intros Hhas Hdir Hfile Hsid.
  assert (Hnil : handlers (app_logger w) = []).
  { destruct (handlers (app_logger w)) eqn:Hl; [reflexivity|].
    rewrite hasHandlers_own in Hhas by (rewrite Hl; discriminate). discriminate Hhas. }
  unfold initialize_logger, bind, external, gets, getattr_session, modify, ret.
  rewrite Hdir. cbn [app_logger logger_parents log_event]. rewrite Hhas.
  cbn [trace log_event]. rewrite Hfile. cbn [session_state log_event]. rewrite Hsid.
  eexists. split; [reflexivity|]. simpl. rewrite Hnil. reflexivity.
Qed.

(** A second run after one that returned. *)
Lemma initialize_again (w w1 : world) :
  initialize ct py out w = (Ok tt, w1) ->
  raises out (trace w1) (EvMakedirs (LOG_DIR_PATH ct)) = None ->
  initialize ct py out w1 = (Ok tt, log_event (EvMakedirs (LOG_DIR_PATH ct)) w1).
Proof.
  intros Hrun Hdir.
  destruct (initialize_returns ct py out w w1 Hrun)
    as (Hm & Hs & Hhas & f & Hf & Hskip & _ & Hr).
  unfold initialize.
  erewrite bind_ok_eq
    by (rewrite initialize_session_state_run, bool_decide_eq_true_2 by exact Hm; reflexivity).
  erewrite bind_ok_eq
    by (rewrite initialize_session_id_run, bool_decide_eq_true_2 by exact Hs; reflexivity).
  erewrite bind_ok_eq by (apply initialize_logger_has; assumption).
  erewrite bind_ok_eq by (eapply initialize_stock_status_skip_any; [exact Hf | exact Hskip]).
  apply initialize_retriever_present. exact Hr.
Qed.

(** The first run of a session in a process without handlers. *)
Lemma initialize_first (w : world) :
  session_state w !! "session_id" = None ->
  hasHandlers (app_logger w) (logger_parents w) = false ->
  raises out (trace w ++ [EvUuid4]) (EvMakedirs (LOG_DIR_PATH ct)) = None ->
  raises out (trace w ++ [EvUuid4; EvMakedirs (LOG_DIR_PATH ct)])
    (EvTimedRotatingFileHandler (os_path_join py (LOG_DIR_PATH ct) (LOG_FILE ct))) = None ->
  session_state (initialize ct py out w).2 !! "session_id"
  = Some (VStr (uuid4_hex out (uuid4_calls w)))
  /\ app_logger (initialize ct py out w).2
     = Logger [log_handler_of ct py (VStr (uuid4_hex out (uuid4_calls w)))] INFO
              (propagate (app_logger w)).
Proof.
  intros Hsid Hhas Hdir Hfile.
  set (w1 := (initialize_session_state w).2).
  assert (H1 : session_state w1 !! "session_id" = None /\ trace w1 = trace w
               /\ app_logger w1 = app_logger w /\ logger_parents w1 = logger_parents w).
  { subst w1. rewrite initialize_session_state_run. cbn [snd].
    case_bool_decide; [auto|]. simpl. rewrite lookup_insert_ne by discriminate. auto. }
  destruct H1 as (Hsid1 & Ht1 & Hl1 & Hp1).
  set (w2 := (initialize_session_id out w1).2).
  assert (H2 : session_state w2 !! "session_id" = Some (VStr (uuid4_hex out (uuid4_calls w)))
               /\ trace w2 = trace w ++ [EvUuid4]
               /\ app_logger w2 = app_logger w /\ logger_parents w2 = logger_parents w).
  { subst w2. rewrite initialize_session_id_run. cbn [snd].
    rewrite bool_decide_eq_false_2 by (rewrite Hsid1; intros [? [=]]).
    unfold uuid4_calls. simpl. rewrite lookup_insert_eq, Ht1. auto. }
  destruct H2 as (Hsid2 & Ht2 & Hl2 & Hp2).
  destruct (initialize_logger_attach_run w2 (VStr (uuid4_hex out (uuid4_calls w))))
    as (w3 & H3 & Hlog3); try assumption.
  { rewrite Hl2, Hp2. exact Hhas. }
  { rewrite Ht2. exact Hdir. }
  { rewrite Ht2, <- app_assoc. exact Hfile. }
  rewrite Hl2 in Hlog3.
  destruct (initialize ct py out w) as [r w'] eqn:Hrun. cbn [snd].
  apply initialize_stages in Hrun as (r3 & w3' & H3' & Hrest).
  fold w1 in H3'. fold w2 in H3'. rewrite H3 in H3'. injection H3' as <- <-.
  pose proof (initialize_logger_frame ct py out w2 _ w3 H3) as (S3 & _ & _).
  destruct Hrest as [(e & [=] & _) | (_ & r4 & w4 & H4 & Hrest)].
  apply initialize_stock_status_frame in H4 as (S4 & L4 & _).
  destruct Hrest as [(e & _ & _ & ->) | (_ & H5)].
  - rewrite S4, S3, L4. auto.
  - apply initialize_retriever_frame in H5 as (_ & L5 & _ & S5).
    rewrite S5 by discriminate. rewrite S4, S3, L5, L4. auto.
Qed.
End InitializeRuns.

(** X8. [initialize] never changes what a key of the session state holds:
    however the run ends, a chat history, a session identifier or a
    retriever that was there is there as it was. *)
Theorem initialize_keeps_session (ct : constants) (py : python) (out : outside)
    (w : world) (r : result unit) (w' : world) (name : string) (v : value) :
  initialize ct py out w = (r, w') ->
  session_state w !! name = Some v ->
  session_state w' !! name = Some v.
Proof. intros Hrun. apply (initialize_keeps ct py out w r w' Hrun). Qed.

Lemma initialize_keeps_session_witness :
  session_state
    (initialize sample_ct linux loading_outside
       (set_session_state (fun _ => chat_session) (world_of (Some widget_file)))).2
    !! "messages"
  = Some (VList [VStr (lit "hello")]).
Proof.
  apply (initialize_keeps_session sample_ct linux loading_outside
           (set_session_state (fun _ => chat_session) (world_of (Some widget_file)))
           (Ok tt) _ "messages" (VList [VStr (lit "hello")]));
    vm_compute; reflexivity.
Defined.

(** X9. After a run of [initialize] that returned, the session has
    [messages], [session_id] and [retriever], a logger up the chain has a
    handler, and the catalogue needs no column; a retriever built in this
    run is the one over that catalogue, the one the enricher left. *)
Theorem initialize_establishes (ct : constants) (py : python) (out : outside)
    (w w' : world) :
  initialize ct py out w = (Ok tt, w') ->
  is_Some (session_state w' !! "messages")
  /\ is_Some (session_state w' !! "session_id")
  /\ is_Some (session_state w' !! "retriever")
  /\ hasHandlers (app_logger w') (logger_parents w') = true
  /\ exists f,
       catalog w' = Some f /\ needs_no_column f = true
       /\ (session_state w !! "retriever" = None ->
           session_state w' !! "retriever" = Some (built_retriever ct py out f)).
Proof.
  intros Hrun.
  destruct (initialize_returns ct py out w w' Hrun)
    as (Hm & Hs & Hhas & f & Hf & Hskip & Hbuilt & Hr).
  repeat split; try assumption. exists f. auto.
Qed.

Lemma initialize_establishes_witness :
  is_Some (session_state
             (initialize sample_ct linux loading_outside (world_of (Some widget_file))).2
           !! "messages")
  /\ is_Some (session_state
                (initialize sample_ct linux loading_outside (world_of (Some widget_file))).2
              !! "session_id")
  /\ is_Some (session_state
                (initialize sample_ct linux loading_outside (world_of (Some widget_file))).2
              !! "retriever")
  /\ hasHandlers
       (app_logger
          (initialize sample_ct linux loading_outside (world_of (Some widget_file))).2)
       (logger_parents
          (initialize sample_ct linux loading_outside (world_of (Some widget_file))).2)
     = true
  /\ exists f,
       catalog (initialize sample_ct linux loading_outside (world_of (Some widget_file))).2
       = Some f
       /\ needs_no_column f = true
       /\ (session_state (world_of (Some widget_file)) !! "retriever" = None ->
           session_state
             (initialize sample_ct linux loading_outside (world_of (Some widget_file))).2
             !! "retriever"
           = Some (built_retriever sample_ct linux loading_outside f)).
Proof.
  apply (initialize_establishes sample_ct linux loading_outside
           (world_of (Some widget_file))).
  vm_compute. reflexivity.
Defined.

(** X10. After a run of [initialize] that returned, a second run in the
    same session, when the log directory can be made, returns and does
    nothing but make that directory: no identifier, no handler, no call of
    the model, no write of the catalogue, no build. *)
Theorem initialize_rerun (ct : constants) (py : python) (out : outside) (w w1 : world) :
  initialize ct py out w = (Ok tt, w1) ->
  raises out (trace w1) (EvMakedirs (LOG_DIR_PATH ct)) = None ->
  initialize ct py out w1 = (Ok tt, log_event (EvMakedirs (LOG_DIR_PATH ct)) w1).
Proof. apply initialize_again. Qed.

Lemma initialize_rerun_witness :
  initialize sample_ct linux loading_outside
    (initialize sample_ct linux loading_outside (world_of (Some widget_file))).2
  = (Ok tt,
     log_event (EvMakedirs (LOG_DIR_PATH sample_ct))
       (initialize sample_ct linux loading_outside (world_of (Some widget_file))).2).
Proof.
  apply (initialize_rerun sample_ct linux loading_outside (world_of (Some widget_file)));
    vm_compute; reflexivity.
Defined.

(** X11. In the first run of [initialize] in a session without identifier
    and a process without handlers, when the log directory and the log file
    can be opened, the identifier made for the session is the one in the
    format of the handler attached, however the later steps end. *)
Theorem initialize_logs_session_id (ct : constants) (py : python) (out : outside)
    (w : world) :
  session_state w !! "session_id" = None ->
  hasHandlers (app_logger w) (logger_parents w) = false ->
  raises out (trace w ++ [EvUuid4]) (EvMakedirs (LOG_DIR_PATH ct)) = None ->
  raises out (trace w ++ [EvUuid4; EvMakedirs (LOG_DIR_PATH ct)])
    (EvTimedRotatingFileHandler (os_path_join py (LOG_DIR_PATH ct) (LOG_FILE ct))) = None ->
  exists session_id,
    session_state (initialize ct py out w).2 !! "session_id" = Some session_id
    /\ session_id = VStr (uuid4_hex out (uuid4_calls w))
    /\ handlers (app_logger (initialize ct py out w).2)
       = [Handler (os_path_join py (LOG_DIR_PATH ct) (LOG_FILE ct)) (lit "D") (lit "utf8")
                  (Some (log_format py session_id))]
    /\ level (app_logger (initialize ct py out w).2) = INFO.
Proof.
  intros Hsid Hhas Hdir Hfile.
  destruct (initialize_first ct py out w Hsid Hhas Hdir Hfile) as [Hs Hl].
  eexists. split; [exact Hs|]. split; [reflexivity|]. rewrite Hl. auto.
Qed.

Lemma initialize_logs_session_id_witness :
  exists session_id,
    session_state (initialize sample_ct linux failing_outside (world_of None)).2
      !! "session_id" = Some session_id
    /\ session_id = VStr (lit "9f1c2b7a")
    /\ handlers (app_logger (initialize sample_ct linux failing_outside (world_of None)).2)
       = [Handler (lit "./logs/application.log") (lit "D") (lit "utf8")
                  (Some (log_format linux session_id))]
    /\ level (app_logger (initialize sample_ct linux failing_outside (world_of None)).2) = 20%Z.
Proof.
  apply (initialize_logs_session_id sample_ct linux failing_outside (world_of None));
    reflexivity.
Defined.

(** ** More on the enricher *)

Section EnricherRuns.
Context (py : python) (out : outside).
Implicit Types (names r : list pystr) (todo rest : csv_file) (w : world).

Lemma chat_calls_rows names todo w w' :
  trace w' = trace w ++ (row_event py names <$> todo) ->
  chat_calls w' = (chat_calls w + length todo)%nat.
Proof.
  unfold chat_calls. intros ->. rewrite filter_app, length_app. f_equal.
  induction todo as [|r todo IH]; [reflexivity|].
  cbn [fmap list_fmap]. rewrite filter_cons_True by reflexivity. simpl. f_equal. exact IH.
Qed.

(** The run up to the loop, for a header that asks for the column. *)
Lemma initialize_stock_status_enrich w names rest :
  catalog w = Some (names :: rest) ->
  names ≠ [] -> lit "stock_status" ∉ names ->
  initialize_stock_status py out w
  = bind (enrich_rows py out names (reader_rows (names :: rest)) [])
         (fun rows =>
            bind (open_write)
                 (fun _ => bind (writeheader py (names ++ [lit "stock_status"]))
                             (fun _ => writerows py (names ++ [lit "stock_status"]) rows)))
         w.
Proof.
  intros Hf Hne Hss. unfold initialize_stock_status. unfold bind at 1, open_read.
  rewrite Hf. cbn [reader_fieldnames head].
  rewrite (bool_decide_eq_false_2 (names = [])) by exact Hne.
  rewrite (bool_decide_eq_false_2 (lit "stock_status" ∈ names)) by exact Hss.
  reflexivity.
Qed.

(** The write of the file, for rows that were made. *)
Lemma write_phase names (rows : list row_dict) w :
  bind (open_write)
       (fun _ => bind (writeheader py (names ++ [lit "stock_status"]))
                   (fun _ => writerows py (names ++ [lit "stock_status"]) rows)) w
  = writerows py (names ++ [lit "stock_status"]) rows
      (set_catalog (Some [names ++ [lit "stock_status"]]) (set_catalog (Some []) w)).
Proof.
  unfold bind at 1, open_write, modify. unfold bind at 1. rewrite writeheader_run.
  reflexivity.
Qed.

(** The rows of a loop that returns: each row of the file with a label. *)
Lemma enrich_rows_rows names todo (acc rows : list row_dict) w w' :
  enrich_rows py out names todo acc w = (Ok rows, w') ->
  exists answers,
    length answers = length todo
    /\ rows = acc ++ zip_with (enriched_row names) todo answers.
Proof.
  revert acc w. induction todo as [|r todo IH]; intros acc w.
  - intros [= <- <-]. exists []. rewrite app_nil_r. auto.
  - rewrite enrich_rows_step.
    destruct (fields (reader_next names r) !! lit "name") as [v|]; [|intros [=]].
    destruct (chat_completion out _ _) as [content | e]; [|intros [=]].
    intros Hrun. apply IH in Hrun as (answers & Hlen & ->).
    exists (content :: answers). cbn [length zip_with]. rewrite <- app_assoc. auto.
Qed.

(** The rows of a write that returns: each dict was made a list. *)
Lemma writerows_written (fieldnames : list pystr) (rows : list row_dict) w w' f :
  catalog w = Some f ->
  writerows py fieldnames rows w = (Ok tt, w') ->
  exists lists,
    Forall2 (fun row l => dict_to_list py fieldnames row = Ok l) rows lists
    /\ catalog w' = Some (f ++ lists).
Proof.
  revert w f. induction rows as [|row rows IH]; intros w f Hf.
  - intros [= <-]. exists []. rewrite app_nil_r. auto.
  - cbn [writerows]. unfold bind at 1, dict_writerow.
    destruct (dict_to_list py fieldnames row) as [l | e] eqn:Hrow; [|intros [=]].
    unfold writerow, modify. rewrite Hf. change (default [] (Some f)) with f.
    cbv beta iota. intros Hrun.
    apply (IH (set_catalog (Some (f ++ [l])) w) (f ++ [l]) eq_refl) in Hrun
      as (lists & Hall & Hcat).
    exists (l :: lists). split; [constructor; assumption|].
    rewrite Hcat, <- app_assoc. reflexivity.
Qed.

(** A dict with a label that the writer accepts is written as a row of
    the width of the header, the label last. *)
Lemma dict_to_list_label names (d : row_dict) (label : pystr) (l : list pystr) :
  dict_to_list py (names ++ [lit "stock_status"])
    (setitem d (lit "stock_status") (VStr label)) = Ok l ->
  length l = S (length names) /\ last l = Some label.
Proof.
  unfold dict_to_list, setitem. cbn [restkey_None fields].
  destruct (_ && _); [|intros [=]]. intros [= <-]. split.
  - rewrite length_fmap, length_app. simpl. lia.
  - rewrite fmap_app. cbn [fmap list_fmap]. rewrite last_snoc, lookup_insert_eq.
    reflexivity.
Qed.
End EnricherRuns.

(** X12. A header without [name] and with a row below it: the run raises
    [KeyError] at the first row, before the model is asked anything, and
    the world, the file with it, is as it was. *)
Theorem missing_name_column (py : python) (out : outside) (w : world)
    (names : list pystr) (rest : csv_file) :
  catalog w = Some (names :: rest) ->
  names ≠ [] -> lit "stock_status" ∉ names ->
  lit "name" ∉ names ->
  reader_rows (names :: rest) ≠ [] ->
  initialize_stock_status py out w = (Raise (KeyError (lit "name")), w).
Proof.
  intros Hf Hne Hss Hname Hrows.
  rewrite (initialize_stock_status_enrich py out w names rest Hf Hne Hss).
  destruct (reader_rows (names :: rest)) as [|r todo]; [contradiction|].
  unfold bind at 1. rewrite enrich_rows_step.
  destruct (fields (reader_next names r) !! lit "name") as [v|] eqn:Hv; [|reflexivity].
  exfalso. apply Hname. apply (reader_next_keys names r). eauto.
Qed.

Lemma missing_name_column_witness :
  initialize_stock_status linux stub_outside (world_of (Some no_name_file))
  = (Raise (KeyError (lit "name")), world_of (Some no_name_file)).
Proof.
  apply (missing_name_column linux stub_outside (world_of (Some no_name_file))
           [lit "price"] [[lit "100"]]).
  - reflexivity.
  - discriminate.
  - intros [H | H]%elem_of_cons; [discriminate H | inversion H].
  - intros [H | H]%elem_of_cons; [discriminate H | inversion H].
  - discriminate.
Defined.

(** X13. A run that enriches and returns has asked the model exactly once
    for each row that is not empty, in the order of the file, each time
    with the prompt of that row, and has made no other call. *)
Theorem one_call_per_row (py : python) (out : outside) (w w' : world)
    (names : list pystr) (rest : csv_file) :
  catalog w = Some (names :: rest) ->
  names ≠ [] -> lit "stock_status" ∉ names ->
  initialize_stock_status py out w = (Ok tt, w') ->
  trace w' = trace w ++ (row_event py names <$> reader_rows (names :: rest))
  /\ chat_calls w' = (chat_calls w + length (reader_rows (names :: rest)))%nat.
Proof.
  intros Hf Hne Hss Hrun.
  rewrite (initialize_stock_status_enrich py out w names rest Hf Hne Hss) in Hrun.
  apply bind_Ok in Hrun as (rows & w2 & Hloop & Hwrite).
  rewrite write_phase in Hwrite.
  apply enrich_rows_frame in Hloop as (_ & _ & _ & _ & n & Hn & Hlen).
  apply writerows_frame in Hwrite as (_ & _ & _ & Ht).
  rewrite (Hlen rows eq_refl), firstn_all in Hn.
  assert (Htrace : trace w' = trace w ++ (row_event py names <$> reader_rows (names :: rest))).
  { rewrite Ht. exact Hn. }
  split; [exact Htrace|]. apply (chat_calls_rows py names _ w w' Htrace).
Qed.

Lemma one_call_per_row_witness :
  trace (initialize_stock_status linux stub_outside (world_of (Some short_row_file))).2
  = [] ++ (row_event linux [lit "name"; lit "price"]
             <$> reader_rows short_row_file)
  /\ chat_calls (initialize_stock_status linux stub_outside (world_of (Some short_row_file))).2
     = (0 + length (reader_rows short_row_file))%nat.
Proof.
  apply (one_call_per_row linux stub_outside (world_of (Some short_row_file))
           (initialize_stock_status linux stub_outside (world_of (Some short_row_file))).2
           [lit "name"; lit "price"] [[lit "Widget"]; []; [lit "Gadget"; lit "12"]]).
  - reflexivity.
  - discriminate.
  - intros [H | [H | H]%elem_of_cons]%elem_of_cons;
      [discriminate H | discriminate H | inversion H].
  - reflexivity.
Defined.

(** X15. A run that enriches and returns leaves a rectangular file: the
    header with [stock_status] last, and one row for each row that is not
    empty, each with as many fields as that header and one of the three
    labels last. *)
Theorem enriched_file_shape (py : python) (out : outside) (w w' : world)
    (names : list pystr) (rest : csv_file) :
  catalog w = Some (names :: rest) ->
  names ≠ [] -> lit "stock_status" ∉ names ->
  initialize_stock_status py out w = (Ok tt, w') ->
  exists data,
    catalog w' = Some ((names ++ [lit "stock_status"]) :: data)
    /\ length data = length (reader_rows (names :: rest))
    /\ Forall (fun row => length row = S (length names)
                          /\ exists label, label ∈ stock_labels /\ last row = Some label)
         data.
Proof.
  intros Hf Hne Hss Hrun.
  rewrite (initialize_stock_status_enrich py out w names rest Hf Hne Hss) in Hrun.
  apply bind_Ok in Hrun as (rows & w2 & Hloop & Hwrite).
  rewrite write_phase in Hwrite.
  apply enrich_rows_rows in Hloop as (answers & Hlen & ->). cbn [app] in Hwrite.
  apply writerows_written with (f := [names ++ [lit "stock_status"]]) in Hwrite
    as (data & Hall & Hcat); [|reflexivity].
  exists data. split; [exact Hcat|]. split.
  - rewrite <- (Forall2_length _ _ _ Hall), length_zip_with. lia.
  - clear Hcat Hlen. revert answers data Hall.
    induction (reader_rows (names :: rest)) as [|r todo IH];
      intros [|a answers] data Hall; cbn [zip_with] in Hall;
      inversion Hall as [|d l ds ls Hrow Hrest]; subst; constructor.
    + apply dict_to_list_label in Hrow as [Hwidth Hlast]. split; [exact Hwidth|].
      exists (checked_label a). split; [apply checked_label_in | exact Hlast].
    + apply (IH answers). exact Hrest.
Qed.

Lemma enriched_file_shape_witness :
  exists data,
    catalog (initialize_stock_status linux stub_outside (world_of (Some short_row_file))).2
    = Some (([lit "name"; lit "price"] ++ [lit "stock_status"]) :: data)
    /\ length data = length (reader_rows short_row_file)
    /\ Forall (fun row => length row = 3%nat
                          /\ exists label, label ∈ stock_labels /\ last row = Some label)
         data.
Proof.
  apply (enriched_file_shape linux stub_outside (world_of (Some short_row_file))
           (initialize_stock_status linux stub_outside (world_of (Some short_row_file))).2
           [lit "name"; lit "price"] [[lit "Widget"]; []; [lit "Gadget"; lit "12"]]).
  - reflexivity.
  - discriminate.
  - intros [H | [H | H]%elem_of_cons]%elem_of_cons;
      [discriminate H | discriminate H | inversion H].
  - vm_compute. reflexivity.
Defined.

(** X19. With a client whose message is a [ChatCompletionMessage], a
    catalogue that asks for the column and has a row gets none: the run
    ends at the first row with the [TypeError] of the subscript, after the
    one call for that row, and the file is as it was. *)
Theorem enrichment_stops_at_first_row (py : python) (out : outside) (w : world)
    (names : list pystr) (rest : csv_file) (r : list pystr) (content : option pystr) :
  catalog w = Some (names :: rest) ->
  lit "name" ∈ names -> lit "stock_status" ∉ names ->
  head (reader_rows (names :: rest)) = Some r ->
  chat_completions_create out (chat_calls w) (row_prompt py names r)
  = Ok (ChatCompletionMessage content) ->
  initialize_stock_status py out w
  = (Raise TypeError, log_event (row_event py names r) w).
Proof.
  intros Hf Hname Hss Hr Hreply.
  rewrite (initialize_stock_status_enrich py out w names rest Hf) by
    (try exact Hss; intros ->; inversion Hname).
  destruct (reader_rows (names :: rest)) as [|r0 todo]; [discriminate Hr|].
  injection Hr as ->. unfold bind at 1. rewrite enrich_rows_step.
  destruct (reader_next_has_names names r _ Hname) as [v ->].
  unfold chat_completion. rewrite Hreply. reflexivity.
Qed.

Lemma enrichment_stops_at_first_row_witness :
  initialize_stock_status linux (library_outside (lit "あり")) (world_of (Some widget_file))
  = (Raise TypeError,
     log_event (row_event linux [lit "name"] [lit "Widget"]) (world_of (Some widget_file))).
Proof.
  apply (enrichment_stops_at_first_row linux (library_outside (lit "あり"))
           (world_of (Some widget_file)) [lit "name"] [[lit "Widget"]; [lit "Gadget"]]
           [lit "Widget"] (Some (lit "あり"))).
  - reflexivity.
  - left.
  - intros [H | H]%elem_of_cons; [discriminate H | inversion H].
  - reflexivity.
  - reflexivity.
Defined.
